(** * cslFetcher: style identifier resolution (lib/cslFetcher.js)

    A shallow embedding of the style resolution pipeline of the
    citeproc-node server: [init], [processStyleIdentifier],
    [resolveStyle], [fetchStyle] and [readDependent].  The member
    [_cache] and [getCachedStyle], which the pipeline does not use, and
    the rewriting of the text in [readDependent] are modelled apart, after
    the pipeline.

    Conventions of the embedding.
    - The two registries [cslShortNames] and [cslDependentShortNames] are
      JavaScript object literals used as hashes.  They are modelled by
      their own properties (a [gmap string jsval]) together with the
      properties every object literal inherits from [Object.prototype];
      [__proto__] is the accessor property of [Object.prototype].
    - The callback of a waterfall step and the file reads it issues are
      recorded in a trace of events; a step returns the fetcher, the
      request and the trace it produced.  The callback itself is taken
      not to throw.
    - [fs.readFile] is asynchronous: [resolveStyle] is modelled in two
      parts, the call up to its [return] ([resolveStyle_call]) and the
      continuation that runs when the read completes
      ([resolveStyle_onRead]), on the fetcher as other requests have left
      it by then.  [resolveStyle] is the two in sequence with nothing
      between them.  The states of the fetcher are those reached by
      completions of reads in any order ([step]).  [fetchStyle] never
      assigns to the fetcher and is modelled as one function.
    - The steps are called as methods of [cslFetcher], so that [this] and
      [cslFetcher] are the same object.
    - [url.parse] and the DOM parser of [jsdom] are library code outside
      the repository: the functions take them as parameters.  [NodeUrl]
      gives a concrete parser for closed examples.
    - Strings are sequences of 8-bit characters; indices and lengths agree
      with those of JavaScript on ASCII text. *)

From stdpp Require Import gmap strings list fin_maps relations.
From Stdlib Require Import String Ascii.

Open Scope string_scope.

(** ** JavaScript values and string primitives *)

Module Js.

(** The values that occur as properties of the two registries: the
    boolean [true], strings, [null] (what [getAttribute] returns for an
    attribute that is absent), and what a lookup finds when there is no
    own property: [undefined], or a member of [Object.prototype]. *)
Inductive jsval :=
  | VUndefined
  | VBool (b : bool)
  | VString (s : string)
  | VFunction
  | VObject
  | VNull.

#[global] Instance jsval_eq_dec : EqDecision jsval.
Proof. solve_decision. Defined.

(** [typeof v] *)
Definition typeof (v : jsval) : string :=
  match v with
  | VUndefined => "undefined"
  | VBool _ => "boolean"
  | VString _ => "string"
  | VFunction => "function"
  | VObject => "object"
  | VNull => "object"
  end.

(** [v === true] *)
Definition is_true (v : jsval) : bool :=
  match v with
  | VBool true => true
  | _ => false
  end.

(** [s.substr(n)]: the characters of [s] from index [n] on. *)
Definition substr_from (n : nat) (s : string) : string :=
  substring n (String.length s - n) s.

(** [s.substr(0, n)] *)
Definition substr_to (n : nat) (s : string) : string :=
  substring 0 n s.

(** [s.substr(-n)]: the last [n] characters (all of [s] when shorter). *)
Definition substr_last (n : nat) (s : string) : string :=
  substring (String.length s - n) n s.

(** [s.slice(0, -n)]: [s] without its last [n] characters. *)
Definition slice_but_last (n : nat) (s : string) : string :=
  substring 0 (String.length s - n) s.

(** The property names of [Object.prototype], with the kind of value
    found there. *)
Definition object_prototype : list (string * jsval) :=
  [ ("constructor", VFunction);
    ("toString", VFunction);
    ("toLocaleString", VFunction);
    ("valueOf", VFunction);
    ("hasOwnProperty", VFunction);
    ("isPrototypeOf", VFunction);
    ("propertyIsEnumerable", VFunction);
    ("__defineGetter__", VFunction);
    ("__defineSetter__", VFunction);
    ("__lookupGetter__", VFunction);
    ("__lookupSetter__", VFunction);
    ("__proto__", VObject) ].

Fixpoint assoc (k : string) (l : list (string * jsval)) : option jsval :=
  match l with
  | [] => None
  | (k', v) :: l' => if String.eqb k k' then Some v else assoc k l'
  end.

Definition inherited (k : string) : jsval :=
  match assoc k object_prototype with
  | Some v => v
  | None => VUndefined
  end.

(** [o[k]] for an object literal whose own properties are [o]. *)
Definition get (o : gmap string jsval) (k : string) : jsval :=
  match o !! k with
  | Some v => v
  | None => inherited k
  end.

(** [o[k]] for an object whose prototype is [null]: there are only the
    own properties. *)
Definition get_bare (o : gmap string jsval) (k : string) : jsval :=
  match o !! k with
  | Some v => v
  | None => VUndefined
  end.

(** [o[k] = v] for an object literal [o] and a primitive [v] (a boolean
    or a string): an own property is created or overwritten, except for
    the key [__proto__], the accessor of [Object.prototype], where
    assigning a primitive leaves the object as it is.  Assigning [null]
    under [__proto__] replaces the prototype of the object: see
    [dependent_set] below. *)
Definition set (o : gmap string jsval) (k : string) (v : jsval)
  : gmap string jsval :=
  if String.eqb k "__proto__" then o else <[k := v]> o.

(** [o[k]] where [k] may be [undefined]: the key is converted to a
    string. *)
Definition key (k : option string) : string :=
  match k with
  | Some s => s
  | None => "undefined"
  end.

End Js.

Import Js.

(** ** Data model *)

(** The fields of the object returned by [url.parse] that this file reads;
  [None] stands for a field that is absent or [null]. *)
Record ParsedUrl := mkParsedUrl {
protocol : option string;
host : option string;
pathname : option string;
search : option string;
hash : option string
}.

(** A parsed URL with the [shortName] property that
  [processStyleIdentifier] adds ([None]: the property was not set). *)
Record UrlObj := mkUrlObj {
parsed : ParsedUrl;
shortName : option string
}.

(** What [processStyleIdentifier] returns: a URL object, or an error
  message as a simple string. *)
Inductive StyleId :=
| UrlObjV (u : UrlObj)
| ErrorString (msg : string).

(** The members of [cslFetcher] that the pipeline uses.  The two tables
  are given by their own properties.  [cslShortNames] is written by
  [init] only and is an object literal throughout; for
  [cslDependentShortNames], which [resolveStyle] writes,
  [dependentProto] tells whether its prototype is still
  [Object.prototype], as [init] made it, or has been set to [null]. *)
Record Fetcher := mkFetcher {
cslPath : string;
cslShortNames : gmap string jsval;
cslDependentShortNames : gmap string jsval;
dependentProto : bool
}.

(** The body of a POST request; [styleXml] may be missing. *)
Record PostObj := mkPostObj {
styleXml : option string
}.

(** The request object [zcreq] threaded through the waterfall. *)
Record ZcReq := mkZcReq {
styleUrlObj : StyleId;
postedStyle : bool;
postObj : option PostObj;
cslXml : option string
}.

(** ** init *)

Definition csl_suffix : string := ".csl".

(** One iteration of the loops of [init]. *)
Definition record_name (shortNames : gmap string jsval) (filename : string)
: gmap string jsval :=
if String.eqb (substr_last 4 filename) csl_suffix
then Js.set shortNames (slice_but_last 4 filename) (VBool true)
else shortNames.

Definition scan_dir (dir : list string) : gmap string jsval :=
foldl record_name ∅ dir.

(** [init config], with the listings that the two [readdirSync] calls
  return. *)
Definition init (config_cslPath : string) (dir depDir : list string) : Fetcher :=
{| cslPath := config_cslPath;
   cslShortNames := scan_dir dir;
   cslDependentShortNames := scan_dir depDir;
   dependentProto := true |}.

(** ** A model of Node's [url.parse]

  [url.parse] belongs to Node's library.  The functions of this file
  take the parser as a parameter; [NodeUrl.parse] follows the steps of
  the library's parser on the inputs the closed examples need: strings
  made of lower-case letters, digits and [. - _ / ? # = &], with at most
  one [:] (the one that ends the protocol).  On these the steps left out
  (trimming, [user@] parts, ports, host-name validation and lower-casing,
  escaping of unsafe characters) change nothing. *)

Module NodeUrl.

Definition between (lo hi c : ascii) : bool :=
  Nat.leb (nat_of_ascii lo) (nat_of_ascii c)
  && Nat.leb (nat_of_ascii c) (nat_of_ascii hi).

(** The character class of [protocolPattern], [/^([a-z0-9.+-]+:)/i]. *)
Definition is_proto_char (c : ascii) : bool :=
  between "a" "z" c || between "A" "Z" c || between "0" "9" c
  || Ascii.eqb c "." || Ascii.eqb c "+" || Ascii.eqb c "-".

Definition lower_char (c : ascii) : ascii :=
  if between "A" "Z" c then ascii_of_nat (nat_of_ascii c + 32) else c.

Fixpoint lower (s : string) : string :=
  match s with
  | EmptyString => EmptyString
  | String c s' => String (lower_char c) (lower s')
  end.

(** The longest prefix of [s] whose characters satisfy [p], and the
    rest. *)
Fixpoint span (p : ascii -> bool) (s : string) : string * string :=
  match s with
  | EmptyString => (EmptyString, EmptyString)
  | String c s' =>
      if p c
      then (String c (fst (span p s')), snd (span p s'))
      else (EmptyString, s)
  end.

(** The match of [protocolPattern], lower-cased, and what follows it. *)
Definition split_protocol (s : string) : option string * string :=
  match span is_proto_char s with
  | (String c p, String d rest) =>
      if Ascii.eqb d ":"
      then (Some (lower (String c p) +:+ ":"), rest)
      else (None, s)
  | _ => (None, s)
  end.

Definition slashed_protocol (p : string) : bool :=
  existsb (String.eqb p) ["http:"; "https:"; "ftp:"; "gopher:"; "file:"].

Definition hostless_protocol (p : string) : bool :=
  String.eqb p "javascript:".

(** The first instance of [/], [?], [;] or [#] ends the host. *)
Definition host_char (c : ascii) : bool :=
  negb (Ascii.eqb c "/" || Ascii.eqb c "?" || Ascii.eqb c ";"
        || Ascii.eqb c "#").

Definition nonempty (s : string) : option string :=
  match s with
  | EmptyString => None
  | _ => Some s
  end.

(** The characters of the usual style names. *)
Definition name_char (c : ascii) : bool :=
  between "a" "z" c || between "0" "9" c
  || Ascii.eqb c "-" || Ascii.eqb c "_" || Ascii.eqb c ".".

Fixpoint all_chars (p : ascii -> bool) (s : string) : bool :=
  match s with
  | EmptyString => true
  | String c s' => p c && all_chars p s'
  end.

Definition parse (url : string) : ParsedUrl :=
  let proto := fst (split_protocol url) in
  let rest := snd (split_protocol url) in
  let hostless :=
    match proto with Some p => hostless_protocol p | None => false end in
  let slashes :=
    match proto with
    | Some _ => String.eqb (substr_to 2 rest) "//"
    | None => false
    end in
  let rest := if slashes && negb hostless then substr_from 2 rest else rest in
  let has_host :=
    negb hostless
    && (slashes
        || match proto with
           | Some p => negb (slashed_protocol p)
           | None => false
           end) in
  let hst := if has_host then Some (fst (span host_char rest)) else None in
  let rest := if has_host then snd (span host_char rest) else rest in
  let hsh := nonempty (snd (span (fun c => negb (Ascii.eqb c "#")) rest)) in
  let rest := fst (span (fun c => negb (Ascii.eqb c "#")) rest) in
  let srch := nonempty (snd (span (fun c => negb (Ascii.eqb c "?")) rest)) in
  let rest := fst (span (fun c => negb (Ascii.eqb c "?")) rest) in
  let slashed :=
    match proto with Some p => slashed_protocol p | None => false end in
  let hostname_set :=
    match hst with Some EmptyString | None => false | Some _ => true end in
  let path :=
    match nonempty rest with
    | Some p => Some p
    | None => if slashed && hostname_set then Some "/" else None
    end in
  {| protocol := proto; host := hst; pathname := path;
     search := srch; hash := hsh |}.

End NodeUrl.

(** ** The pipeline *)

(** A [link] element of a parsed stylesheet, by what [getAttribute]
    returns for the two attributes that [readDependent] reads.  For an
    attribute that the element does not have this is [null]: [href] is
    [None] then.  The value of [rel] is only compared, by [==], with
    ['independent-parent']; an element without [rel] is given any [rel]
    other than that string, [null] being different from it as well. *)
Record LinkEl := mkLinkEl {
  rel : string;
  href : option string
}.

(** What [fs.readFile] hands to its continuation. *)
Inductive FileResult :=
  | FsErr (err : string)
  | FsData (data : string).

(** The failure values a step passes to its callback. *)
Inductive Error :=
  | ErrMessage (msg : string)
  | ErrStatus (statusCode : nat) (message : string)
  | ErrFs (err : string)
  | ErrThrown (what : string).

(** What a step does that can be observed from outside: the files it
    reads, the calls of its callback ([Callback None] is
    [callback(null)]), and an exception that leaves the continuation of
    a read, where nothing catches it. *)
Inductive Event :=
  | ReadFile (filename : string)
  | Callback (err : option Error)
  | Throw (what : string).

(** What a step leaves behind: the fetcher and the request as it has
    mutated them, and its trace. *)
Record Outcome := mkOutcome {
  new_fetcher : Fetcher;
  new_zcreq : ZcReq;
  trace : list Event
}.

Definition canonical_host : string := "www.zotero.org".

Definition canonical_url (style : string) : string :=
  "http://www.zotero.org/styles/" +:+ style.

(** [!h] for the [host] field. *)
Definition falsy (h : option string) : bool :=
  match h with
  | None | Some EmptyString => true
  | Some _ => false
  end.

(** [h == 'www.zotero.org'] *)
Definition host_is (h : option string) (name : string) : bool :=
  match h with
  | Some s => String.eqb s name
  | None => false
  end.

(** [urlObj.host] and [urlObj.shortName] where [urlObj] is what
    [processStyleIdentifier] returned: a string has neither property. *)
Definition id_host (i : StyleId) : option string :=
  match i with
  | UrlObjV u => host (parsed u)
  | ErrorString _ => None
  end.

Definition id_shortName (i : StyleId) : option string :=
  match i with
  | UrlObjV u => shortName u
  | ErrorString _ => None
  end.

Definition with_styleUrlObj (r : ZcReq) (i : StyleId) : ZcReq :=
  {| styleUrlObj := i; postedStyle := postedStyle r;
     postObj := postObj r; cslXml := cslXml r |}.

Definition with_cslXml (r : ZcReq) (x : option string) : ZcReq :=
  {| styleUrlObj := styleUrlObj r; postedStyle := postedStyle r;
     postObj := postObj r; cslXml := x |}.

Definition with_dependent (f : Fetcher) (d : gmap string jsval) : Fetcher :=
  {| cslPath := cslPath f; cslShortNames := cslShortNames f;
     cslDependentShortNames := d; dependentProto := dependentProto f |}.

(** The dependent table with its prototype set to [null]. *)
Definition without_prototype (f : Fetcher) : Fetcher :=
  {| cslPath := cslPath f; cslShortNames := cslShortNames f;
     cslDependentShortNames := cslDependentShortNames f;
     dependentProto := false |}.

(** [cslDependentShortNames[k]] *)
Definition dependent_get (this : Fetcher) (k : string) : jsval :=
  if dependentProto this
  then Js.get (cslDependentShortNames this) k
  else Js.get_bare (cslDependentShortNames this) k.

(** [cslDependentShortNames[k] = v], for [v] a string or [null].  While
    the table has [Object.prototype], the key [__proto__] is the accessor
    found there: given [null] it sets the prototype of the table to
    [null], given a string it does nothing.  Once the prototype is
    [null] the table inherits no accessor, and [__proto__] is a key like
    any other. *)
Definition dependent_set (this : Fetcher) (k : string) (v : jsval) : Fetcher :=
  if dependentProto this && String.eqb k "__proto__" then
    match v with
    | VNull => without_prototype this
    | _ => this
    end
  else with_dependent this (<[k := v]> (cslDependentShortNames this)).

(** The value that [readDependent] returned, as it is stored. *)
Definition parent_value (parentStyle : option string) : jsval :=
  match parentStyle with
  | Some s => VString s
  | None => VNull
  end.

(** The test [typeof o[k] != 'undefined' && o[k] === true] *)
Definition independent (this : Fetcher) (k : string) : bool :=
  negb (String.eqb (typeof (Js.get (cslShortNames this) k)) "undefined")
  && is_true (Js.get (cslShortNames this) k).

(** The test [typeof o[k] != 'undefined'] on the dependent table *)
Definition dependent (this : Fetcher) (k : string) : bool :=
  negb (String.eqb (typeof (dependent_get this k)) "undefined").

(** The loop of [readDependent] over the [link] elements: the [href] of
    the first one whose [rel] is [independent-parent]; [None] is the
    [false] returned when there is none, [Some None] the [null] returned
    when that element has no [href]. *)
Fixpoint find_parent (linkEls : list LinkEl) : option (option string) :=
  match linkEls with
  | [] => None
  | el :: rest =>
      if String.eqb (rel el) "independent-parent"
      then Some (href el)
      else find_parent rest
  end.

Section Pipeline.

(** [url.parse] *)
Variable url_parse : string -> ParsedUrl.

(** The [link] elements, in document order, of the document that [jsdom]
    builds from a stylesheet after [readDependent] has rewritten its text
    (processing instructions removed, [style] tag renamed, trimmed). *)
Variable linkElements : string -> list LinkEl.

Definition processStyleIdentifier (style : string) : StyleId :=
  let urlObj := url_parse style in
  if falsy (host urlObj) then
    UrlObjV {| parsed := url_parse (canonical_url style);
               shortName := Some style |}
  else if host_is (host urlObj) canonical_host then
    match pathname urlObj with
    | Some pathname =>
        if negb (String.eqb (substr_to 8 pathname) "/styles/")
        then ErrorString ("Invalid www.zotero.org URL for style: " +:+ style)
        else UrlObjV {| parsed := urlObj;
                        shortName := Some (substr_from 8 pathname) |}
    | None => ErrorString ("Invalid www.zotero.org URL for style: " +:+ style)
    end
  else
    match pathname urlObj with
    | Some pathname =>
        UrlObjV {| parsed := urlObj;
                   shortName := Some (substr_from 8 pathname) |}
    | None => UrlObjV {| parsed := urlObj; shortName := None |}
    end.

Definition readDependent (xml : string) : option (option string) :=
  find_parent (linkElements xml).

(** The function that [resolveStyle] passes to [fs.readFile], called with
    the result of the read for the style [shortName].  It runs when the
    read completes: [this] is the fetcher as it is then, which other
    requests may have changed since the read was started.  [url.parse]
    throws a [TypeError] when it is given [null]. *)
Definition resolveStyle_onRead (shortName : string) (result : FileResult)
    (this : Fetcher) (zcreq : ZcReq) : Outcome :=
  match result with
  | FsErr err =>
      {| new_fetcher := this; new_zcreq := zcreq;
         trace := [Callback (Some (ErrFs err))] |}
  | FsData data =>
      match readDependent data with
      | None =>
          {| new_fetcher := this; new_zcreq := zcreq;
             trace := [Callback (Some (ErrMessage
                         "Error resolving dependent style"))] |}
      | Some parentStyle =>
          let this' :=
            dependent_set this shortName (parent_value parentStyle) in
          match parentStyle with
          | None =>
              {| new_fetcher := this'; new_zcreq := zcreq;
                 trace := [Throw "TypeError"] |}
          | Some parentStyle =>
              match processStyleIdentifier parentStyle with
              | ErrorString ret =>
                  {| new_fetcher := this'; new_zcreq := zcreq;
                     trace := [Callback (Some (ErrMessage ret))] |}
              | UrlObjV _ =>
                  {| new_fetcher := this';
                     new_zcreq := with_styleUrlObj zcreq
                                    (processStyleIdentifier parentStyle);
                     trace := [Callback None] |}
              end
          end
      end
  end.

(** What a call of [resolveStyle] has done when it returns: it has called
    back, or it has started the read of a file and left the rest to the
    continuation. *)
Inductive Started :=
  | Returned (out : Outcome)
  | Reading (filename shortName : string).

(** [resolveStyle] up to its [return], called with [this] the fetcher. *)
Definition resolveStyle_call (this : Fetcher) (zcreq : ZcReq) : Started :=
  let urlObj := styleUrlObj zcreq in
  let shortName := Js.key (id_shortName urlObj) in
  if independent this shortName then
    Returned
      {| new_fetcher := this; new_zcreq := zcreq; trace := [Callback None] |}
  else if dependent this shortName then
    match dependent_get this shortName with
    | VString parentStyle =>
        Returned
          {| new_fetcher := this;
             new_zcreq := with_styleUrlObj zcreq
                            (processStyleIdentifier parentStyle);
             trace := [Callback None] |}
    | _ =>
        Reading (cslPath this +:+ "/dependent/" +:+ shortName +:+ ".csl")
          shortName
    end
  else
    Returned
      {| new_fetcher := this; new_zcreq := zcreq;
         trace := [Callback (Some (ErrStatus 404 "Style not found"))] |}.

(** [resolveStyle] with its continuation, when nothing else runs between
    the call and the completion of the read it starts; [readFile] is the
    state of the storage. *)
Definition resolveStyle (readFile : string -> FileResult)
    (this : Fetcher) (zcreq : ZcReq) : Outcome :=
  match resolveStyle_call this zcreq with
  | Returned out => out
  | Reading filename shortName =>
      let out := resolveStyle_onRead shortName (readFile filename) this zcreq in
      {| new_fetcher := new_fetcher out; new_zcreq := new_zcreq out;
         trace := ReadFile filename :: trace out |}
  end.

(** [fetchStyle].  Reading [zcreq.postObj.styleXml] throws when [postObj]
    is missing; the [try] block passes what was thrown to the callback. *)
Definition fetchStyle (readFile : string -> FileResult)
    (this : Fetcher) (zcreq : ZcReq) : Outcome :=
  if postedStyle zcreq then
    match postObj zcreq with
    | Some post =>
        {| new_fetcher := this; new_zcreq := with_cslXml zcreq (styleXml post);
           trace := [Callback None] |}
    | None =>
        {| new_fetcher := this; new_zcreq := zcreq;
           trace := [Callback (Some (ErrThrown "TypeError"))] |}
    end
  else if host_is (id_host (styleUrlObj zcreq)) canonical_host then
    let shortName := Js.key (id_shortName (styleUrlObj zcreq)) in
    if independent this shortName then
      let filename := cslPath this +:+ "/" +:+ shortName +:+ ".csl" in
      match readFile filename with
      | FsErr err =>
          {| new_fetcher := this; new_zcreq := zcreq;
             trace := [ReadFile filename;
                       Callback (Some (ErrMessage
                         ("Error loading style from file " +:+ filename
                          +:+ ": " +:+ err)))] |}
      | FsData data =>
          {| new_fetcher := this; new_zcreq := with_cslXml zcreq (Some data);
             trace := [ReadFile filename; Callback None] |}
      end
    else if dependent this shortName then
      if String.eqb (typeof (Js.get (cslShortNames this) shortName)) "string"
      then {| new_fetcher := this; new_zcreq := zcreq; trace := [] |}
      else {| new_fetcher := this; new_zcreq := zcreq; trace := [] |}
    else
      {| new_fetcher := this; new_zcreq := zcreq; trace := [] |}
  else
    {| new_fetcher := this; new_zcreq := zcreq;
       trace := [Callback (Some (ErrMessage
                   "Non-Zotero styles are not supported at this time"))] |}.

End Pipeline.

(** The calls of the callback in a trace, and the files read. *)
Fixpoint callbacks (t : list Event) : list (option Error) :=
  match t with
  | [] => []
  | Callback r :: t' => r :: callbacks t'
  | ReadFile _ :: t' => callbacks t'
  | Throw _ :: t' => callbacks t'
  end.

Fixpoint reads (t : list Event) : list string :=
  match t with
  | [] => []
  | ReadFile n :: t' => n :: reads t'
  | Callback _ :: t' => reads t'
  | Throw _ :: t' => reads t'
  end.

(** The key under which a request is looked up in the registries. *)
Definition request_key (r : ZcReq) : string :=
  Js.key (id_shortName (styleUrlObj r)).

(** The name of the file that [resolveStyle] reads for a dependent
    style. *)
Definition dependent_file (this : Fetcher) (k : string) : string :=
  cslPath this +:+ "/dependent/" +:+ k +:+ ".csl".

(** ** The states of the fetcher

    After [init], the only assignment to a member of the fetcher is the
    one in the continuation that [resolveStyle] passes to [fs.readFile]:
    the fetcher changes when a read completes, and at no other time.
    Between the call that starts a read and its completion, other
    requests run, and other reads complete.

    A read for the name [k] has been started by a call in which [k]
    failed the test for an independent style and passed the test for a
    dependent one.  The first test gives the same answer ever after, and
    a name that passed the second is from then on an own property of the
    dependent table, or the name of a member of [Object.prototype], which
    the table inherited when the call was made.  [read_possible] puts this
    in terms of the state in which the read completes. *)

Definition read_possible (this : Fetcher) (k : string) : bool :=
  negb (independent this k)
  && negb (String.eqb (typeof (Js.get (cslDependentShortNames this) k))
             "undefined").

(** One step: a read for some name completes, with a result that the
    storage can give for the file of that name ([allowed]), and the
    continuation runs. *)
Inductive step_in (url_parse : string -> ParsedUrl)
    (linkElements : string -> list LinkEl)
    (allowed : string -> FileResult -> Prop) : Fetcher -> Fetcher -> Prop :=
  | step_read k result this zcreq :
      read_possible this k = true ->
      allowed (dependent_file this k) result ->
      step_in url_parse linkElements allowed this
        (new_fetcher
           (resolveStyle_onRead url_parse linkElements k result this zcreq)).

(** A step, whatever the storage holds. *)
Definition step (url_parse : string -> ParsedUrl)
    (linkElements : string -> list LinkEl) : Fetcher -> Fetcher -> Prop :=
  step_in url_parse linkElements (fun _ _ => True).

Definition reachable (url_parse : string -> ParsedUrl)
    (linkElements : string -> list LinkEl) (f : Fetcher) : Prop :=
  exists path dir depDir,
    rtc (step url_parse linkElements) (init path dir depDir) f.

(** The names a listing registers: the base names of its [.csl] files. *)
Definition registered (dir : list string) (k : string) : Prop :=
  exists filename,
    filename ∈ dir /\ substr_last 4 filename = csl_suffix
    /\ slice_but_last 4 filename = k.

(** What holds of a registry in every reachable state: [__proto__] is
    not an own property of a table whose prototype is [Object.prototype],
    and the independent names all map to [true]. *)
Definition registry_wf (f : Fetcher) : Prop :=
  cslShortNames f !! "__proto__" = None
  /\ (dependentProto f = true -> cslDependentShortNames f !! "__proto__" = None)
  /\ map_Forall (fun _ v => v = VBool true) (cslShortNames f).

(** ** The cache and the file of an independent style *)

(** The name of the file that [fetchStyle] reads for an independent
    style. *)
Definition independent_file (this : Fetcher) (k : string) : string :=
  cslPath this +:+ "/" +:+ k +:+ ".csl".

(** [getCachedStyle], on the own properties of the member [_cache] (an
    object literal, empty when the module is loaded); [VBool false] is the
    [false] returned on a miss. *)
Definition getCachedStyle (_cache : gmap string jsval) (url : string) : jsval :=
  if negb (String.eqb (typeof (Js.get _cache url)) "undefined")
  then Js.get _cache url
  else VBool false.

(** The values of a dependent table: [true] for a style not yet resolved,
    or what [readDependent] returned for it, a parent string or [null]. *)
Definition dependent_values (f : Fetcher) : Prop :=
  forall k v, cslDependentShortNames f !! k = Some v ->
    v = VBool true \/ v = VNull \/ exists parentStyle, v = VString parentStyle.

(** ** The text that readDependent hands to the parser

    [readDependent] rewrites the text of the stylesheet with three
    [replace] calls and a [trim] before [jsdom] parses it.  The characters
    of a string are code units below 256; among them the white space of
    [\s] and of [trim] is tab, line feed, vertical tab, form feed, carriage
    return, space and no-break space. *)

Definition is_space (c : ascii) : bool :=
  existsb (Nat.eqb (nat_of_ascii c)) [9; 10; 11; 12; 13; 32; 160].

(** What is left of [s] after its leading white space. *)
Fixpoint skip_spaces (s : string) : string :=
  match s with
  | EmptyString => EmptyString
  | String c s' => if is_space c then skip_spaces s' else s
  end.

(** The text before the first [>] and the text after it. *)
Fixpoint until_gt (s : string) : option (string * string) :=
  match s with
  | EmptyString => None
  | String c s' =>
      if Ascii.eqb c ">" then Some (EmptyString, s')
      else match until_gt s' with
           | Some (inside, after) => Some (String c inside, after)
           | None => None
           end
  end.

Fixpoint ends_with_question (s : string) : bool :=
  match s with
  | EmptyString => false
  | String c EmptyString => Ascii.eqb c "?"
  | String _ s' => ends_with_question s'
  end.

(** A match of [/\s*<\?[^>]*\?>\s*\n*/] at the start of [s]: what follows
    the match.  The white space, then [<?]; [[^>]*] cannot pass the first
    [>], so the match ends there, and that [>] has to follow a [?]; the
    trailing [\s*] takes all the white space that follows. *)
Definition match_pi (s : string) : option string :=
  match skip_spaces s with
  | String c1 (String c2 body) =>
      if Ascii.eqb c1 "<" && Ascii.eqb c2 "?" then
        match until_gt body with
        | Some (inside, after) =>
            if ends_with_question inside then Some (skip_spaces after)
            else None
        | None => None
        end
      else None
  | _ => None
  end.

(** [xml.replace(/\s*<\?[^>]*\?>\s*\n*/g, "")]: from left to right, a
    match is dropped and the search goes on behind it; where there is no
    match the character is kept.  A match is never empty, so [fuel] the
    length of the text is enough. *)
Fixpoint strip_pi_fuel (fuel : nat) (s : string) : string :=
  match fuel with
  | 0 => s
  | S fuel' =>
      match match_pi s with
      | Some rest => strip_pi_fuel fuel' rest
      | None =>
          match s with
          | EmptyString => EmptyString
          | String c s' => String c (strip_pi_fuel fuel' s')
          end
      end
  end.

Definition strip_pi (s : string) : string :=
  strip_pi_fuel (String.length s) s.

(** [s] begins with [p]. *)
Fixpoint starts_with (p s : string) : bool :=
  match p with
  | EmptyString => true
  | String a p' =>
      match s with
      | EmptyString => false
      | String b s' => Ascii.eqb a b && starts_with p' s'
      end
  end.

(** A match of [/<style\s/] at the start of [s]. *)
Definition open_tag_here (s : string) : bool :=
  starts_with "<style" s
  && match String.get 6 s with
     | Some c => is_space c
     | None => false
     end.

(** [xml.replace(/<style\s/, "<cslstyle ")]: the first match only. *)
Fixpoint rename_open (s : string) : string :=
  match s with
  | EmptyString => EmptyString
  | String c s' =>
      if open_tag_here s then "<cslstyle " +:+ substr_from 7 s
      else String c (rename_open s')
  end.

(** [xml.replace("</style", "</cslstyle")]: the first occurrence only. *)
Fixpoint rename_close (s : string) : string :=
  match s with
  | EmptyString => EmptyString
  | String c s' =>
      if starts_with "</style" s then "</cslstyle" +:+ substr_from 7 s
      else String c (rename_close s')
  end.

(** [s] without its trailing white space. *)
Fixpoint trim_end (s : string) : string :=
  match s with
  | EmptyString => EmptyString
  | String c s' =>
      match trim_end s' with
      | EmptyString => if is_space c then EmptyString else String c EmptyString
      | t => String c t
      end
  end.

(** [xml.trim()] *)
Definition trim (s : string) : string := trim_end (skip_spaces s).

(** The text that is parsed. *)
Definition rewrite_xml (xml : string) : string :=
  trim (rename_close (rename_open (strip_pi xml))).


(** [p] occurs in [s]. *)
Fixpoint occurs (p s : string) : bool :=
  starts_with p s
  || match s with
     | EmptyString => false
     | String _ s' => occurs p s'
     end.

(** [/<style\s/] matches somewhere in [s]. *)
Fixpoint open_tag_occurs (s : string) : bool :=
  open_tag_here s
  || match s with
     | EmptyString => false
     | String _ s' => open_tag_occurs s'
     end.

(** ** A small installation, for closed examples

    One independent style, and four dependent ones: [apa-variant] points
    at [apa], [chained] points at [apa-variant], [broken] points at a
    [www.zotero.org] URL outside [/styles/], and the parent link of
    [nohref] has no [href].  The root tag of each file has attributes, as
    the files of the style repository have, so that [readDependent]
    renames it.  [example_jsdom_links] gives the [link] elements of the
    documents that the parser is handed, which are the rewritten texts of
    these files; the examples hand it no other text except texts in which
    the parser finds no [link] element. *)

Definition example_fetcher : Fetcher :=
  init "./csl" ["apa.csl"; "README.md"]
    ["apa-variant.csl"; "chained.csl"; "broken.csl"; "nohref.csl"].

Definition apa_variant_xml : string :=
  "<?xml version='1.0' encoding='utf-8'?> <style xmlns='http://purl.org/net/xbiblio/csl' version='1.0'><info><link href='http://www.zotero.org/styles/apa-variant' rel='self'/><link href='http://www.zotero.org/styles/apa' rel='independent-parent'/></info></style>".

(** The file of [apa-variant] after an edit that gives it another
    parent. *)
Definition apa_variant_edited_xml : string :=
  "<?xml version='1.0' encoding='utf-8'?> <style xmlns='http://purl.org/net/xbiblio/csl' version='1.0'><info><link href='http://www.zotero.org/styles/apa-variant' rel='self'/><link href='http://www.zotero.org/styles/mla' rel='independent-parent'/></info></style>".

Definition chained_xml : string :=
  "<style xmlns='http://purl.org/net/xbiblio/csl' version='1.0'><info><link href='apa-variant' rel='independent-parent'/></info></style>".

Definition broken_xml : string :=
  "<style xmlns='http://purl.org/net/xbiblio/csl' version='1.0'><info><link href='http://www.zotero.org/apa' rel='independent-parent'/></info></style>".

Definition nohref_xml : string :=
  "<style xmlns='http://purl.org/net/xbiblio/csl' version='1.0'><info><link rel='independent-parent'/></info></style>".

Definition apa_xml : string :=
  "<style xmlns='http://purl.org/net/xbiblio/csl' version='1.0'></style>".

Definition example_readFile (filename : string) : FileResult :=
  if String.eqb filename "./csl/apa.csl" then FsData apa_xml
  else if String.eqb filename "./csl/dependent/apa-variant.csl"
  then FsData apa_variant_xml
  else if String.eqb filename "./csl/dependent/chained.csl"
  then FsData chained_xml
  else if String.eqb filename "./csl/dependent/broken.csl"
  then FsData broken_xml
  else if String.eqb filename "./csl/dependent/nohref.csl"
  then FsData nohref_xml
  else FsErr "ENOENT".

Definition example_jsdom_links (text : string) : list LinkEl :=
  if String.eqb text
       "<cslstyle xmlns='http://purl.org/net/xbiblio/csl' version='1.0'><info><link href='http://www.zotero.org/styles/apa-variant' rel='self'/><link href='http://www.zotero.org/styles/apa' rel='independent-parent'/></info></cslstyle>"
  then
    [ {| rel := "self";
         href := Some "http://www.zotero.org/styles/apa-variant" |};
      {| rel := "independent-parent";
         href := Some "http://www.zotero.org/styles/apa" |} ]
  else if String.eqb text
       "<cslstyle xmlns='http://purl.org/net/xbiblio/csl' version='1.0'><info><link href='http://www.zotero.org/styles/apa-variant' rel='self'/><link href='http://www.zotero.org/styles/mla' rel='independent-parent'/></info></cslstyle>"
  then
    [ {| rel := "self";
         href := Some "http://www.zotero.org/styles/apa-variant" |};
      {| rel := "independent-parent";
         href := Some "http://www.zotero.org/styles/mla" |} ]
  else if String.eqb text
       "<cslstyle xmlns='http://purl.org/net/xbiblio/csl' version='1.0'><info><link href='apa-variant' rel='independent-parent'/></info></cslstyle>"
  then [ {| rel := "independent-parent"; href := Some "apa-variant" |} ]
  else if String.eqb text
       "<cslstyle xmlns='http://purl.org/net/xbiblio/csl' version='1.0'><info><link href='http://www.zotero.org/apa' rel='independent-parent'/></info></cslstyle>"
  then [ {| rel := "independent-parent";
            href := Some "http://www.zotero.org/apa" |} ]
  else if String.eqb text
       "<cslstyle xmlns='http://purl.org/net/xbiblio/csl' version='1.0'><info><link rel='independent-parent'/></info></cslstyle>"
  then [ {| rel := "independent-parent"; href := None |} ]
  else [].

(** The [link] elements that [readDependent] finds in a file: those of
    the document built from the rewritten text. *)
Definition example_linkElements (xml : string) : list LinkEl :=
  example_jsdom_links (rewrite_xml xml).

(** The request as the server builds it for a style given in the query. *)
Definition request_for (style : string) : ZcReq :=
  {| styleUrlObj := processStyleIdentifier NodeUrl.parse style;
     postedStyle := false; postObj := None; cslXml := None |}.

(** A request that carries a posted stylesheet. *)
Definition request_posting (style payload : string) : ZcReq :=
  {| styleUrlObj := processStyleIdentifier NodeUrl.parse style;
     postedStyle := true; postObj := Some {| styleXml := Some payload |};
     cslXml := None |}.

(** * Properties *)

(** ** Strings *)

Lemma substring_all (s : string) : substring 0 (String.length s) s = s.
Proof. induction s as [|c s IH]; simpl; [done | by rewrite IH]. Qed.

Lemma substr_to_app (a b : string) :
  substr_to (String.length a) (a +:+ b) = a.
Proof.
  unfold substr_to. induction a as [|c a IH]; simpl.
  - by destruct b.
  - by rewrite IH.
Qed.

Lemma substr_from_app (a b : string) :
  substr_from (String.length a) (a +:+ b) = b.
Proof.
  unfold substr_from. induction a as [|c a IH]; simpl.
  - rewrite Nat.sub_0_r. apply substring_all.
  - exact IH.
Qed.

Lemma substring_past (n m : nat) (s : string) :
  String.length s <= n -> substring n m s = "".
Proof.
  revert n; induction s as [|c s IH]; intros n Hn; simpl.
  - by destruct n, m.
  - destruct n as [|n]; simpl in Hn; [lia |]. apply IH. lia.
Qed.

Lemma substr_from_short (n : nat) (s : string) :
  String.length s <= n -> substr_from n s = "".
Proof. intros. by apply substring_past. Qed.

Lemma substring_split (n : nat) (s : string) :
  n <= String.length s ->
  substring 0 n s +:+ substring n (String.length s - n) s = s.
Proof.
  revert n; induction s as [|c s IH]; intros n Hn; simpl in *.
  - by destruct n.
  - destruct n as [|n]; simpl.
    + by rewrite substring_all.
    + change (String c (substring 0 n s
                        +:+ substring n (String.length s - n) s) = String c s).
      rewrite IH; [done | lia].
Qed.

(** A file name that ends in [.csl] is its base name followed by the
    suffix. *)
Lemma csl_filename (filename : string) :
  substr_last 4 filename = csl_suffix ->
  filename = slice_but_last 4 filename +:+ csl_suffix.
Proof.
  unfold substr_last, slice_but_last. intros H.
  destruct (decide (4 <= String.length filename)) as [Hl|Hl].
  - pose proof (substring_split (String.length filename - 4) filename) as Hs.
    replace (String.length filename - (String.length filename - 4))
      with 4 in Hs by lia.
    rewrite H in Hs. symmetry. apply Hs. lia.
  - replace (String.length filename - 4) with 0 in H by lia.
    assert (String.length (substring 0 4 filename) = 4) as Hlen
      by (rewrite H; reflexivity).
    exfalso. apply Hl. clear H.
    destruct filename as [|a [|b [|c [|d s]]]]; simpl in *; lia.
Qed.

(** ** Property lookup and assignment *)

Lemma get_own (o : gmap string jsval) (k : string) (v : jsval) :
  o !! k = Some v -> Js.get o k = v.
Proof. unfold Js.get. by intros ->. Qed.

Lemma lookup_set (o : gmap string jsval) (k k' : string) (v : jsval) :
  Js.set o k v !! k'
  = if decide (k = k' /\ k <> "__proto__") then Some v else o !! k'.
Proof.
  unfold Js.set. destruct (String.eqb_spec k "__proto__") as [->|Hk].
  - case_decide; [intuition (subst; congruence) | done].
  - rewrite lookup_insert. repeat case_decide; intuition (subst; congruence).
Qed.

(** A name whose lookup in [cslShortNames] is not [true] is not an own
    property of a table whose values are all [true]. *)
Lemma independent_false_not_own (f : Fetcher) (k : string) :
  map_Forall (fun _ v => v = VBool true) (cslShortNames f) ->
  independent f k = false -> cslShortNames f !! k = None.
Proof.
  intros Hall Hind. destruct (cslShortNames f !! k) as [v|] eqn:Hk; [|done].
  pose proof (Hall k v Hk) as ->.
  unfold independent in Hind. rewrite (get_own _ _ _ Hk) in Hind. done.
Qed.

Lemma independent_own (f : Fetcher) (k : string) :
  cslShortNames f !! k = Some (VBool true) -> independent f k = true.
Proof. intros Hk. unfold independent. by rewrite (get_own _ _ _ Hk). Qed.

Lemma independent_ext (f f' : Fetcher) (k : string) :
  cslShortNames f' = cslShortNames f -> independent f' k = independent f k.
Proof. unfold independent. by intros ->. Qed.

(** ** init *)

Lemma record_name_lookup (o : gmap string jsval) (filename k : string) :
  record_name o filename !! k
  = if decide (substr_last 4 filename = csl_suffix
               /\ slice_but_last 4 filename = k /\ k <> "__proto__")
    then Some (VBool true) else o !! k.
Proof.
  unfold record_name. destruct (String.eqb_spec (substr_last 4 filename) csl_suffix).
  - rewrite lookup_set. repeat case_decide; intuition (subst; congruence).
  - case_decide; intuition (subst; congruence).
Qed.

Lemma foldl_record_name_lookup (dir : list string) (o : gmap string jsval)
    (k : string) (v : jsval) :
  foldl record_name o dir !! k = Some v ->
  o !! k = Some v \/ (v = VBool true /\ k <> "__proto__" /\ registered dir k).
Proof.
  revert o; induction dir as [|x dir IH]; intros o H; simpl in *.
  - by left.
  - destruct (IH _ H) as [Ho | (-> & Hk & y & Hy & Hs & Hb)].
    + rewrite record_name_lookup in Ho. case_decide as Hd.
      * right. destruct Hd as (Hs & Hb & Hk). split_and!; [congruence | done |].
        exists x. split_and!; [set_solver | done | done].
      * by left.
    + right. split_and!; [done | done |]. exists y. set_solver.
Qed.

Lemma foldl_record_name_keep (dir : list string) (o : gmap string jsval)
    (k : string) :
  o !! k = Some (VBool true) ->
  foldl record_name o dir !! k = Some (VBool true).
Proof.
  revert o; induction dir as [|x dir IH]; intros o H; simpl; [done |].
  apply IH. rewrite record_name_lookup. by case_decide.
Qed.

Lemma foldl_record_name_registered (dir : list string) (o : gmap string jsval)
    (k : string) :
  registered dir k -> k <> "__proto__" ->
  foldl record_name o dir !! k = Some (VBool true).
Proof.
  revert o; induction dir as [|x dir IH]; intros o (y & Hy & Hs & Hb) Hk; simpl.
  - set_solver.
  - apply elem_of_cons in Hy as [<- | Hy].
    + apply foldl_record_name_keep. rewrite record_name_lookup.
      case_decide; intuition (subst; congruence).
    + apply IH; [by exists y | done].
Qed.

(** The own properties that [init] creates from a listing. *)
Lemma scan_dir_lookup (dir : list string) (k : string) (v : jsval) :
  scan_dir dir !! k = Some v <->
  v = VBool true /\ k <> "__proto__" /\ registered dir k.
Proof.
  unfold scan_dir. split.
  - intros H. apply foldl_record_name_lookup in H as [H | H]; [|done].
    by rewrite lookup_empty in H.
  - intros (-> & Hk & Hr). by apply foldl_record_name_registered.
Qed.

Lemma init_wf (path : string) (dir depDir : list string) :
  registry_wf (init path dir depDir).
Proof.
  unfold registry_wf; simpl. split_and!.
  - destruct (scan_dir dir !! "__proto__") eqn:H; [|done].
    apply scan_dir_lookup in H. intuition (subst; congruence).
  - destruct (scan_dir depDir !! "__proto__") eqn:H; [|done].
    apply scan_dir_lookup in H. intuition (subst; congruence).
  - intros k v H. apply scan_dir_lookup in H. intuition (subst; congruence).
Qed.

(** ** The steps and the registry *)

Lemma get_bare_own (o : gmap string jsval) (k : string) (v : jsval) :
  o !! k = Some v -> Js.get_bare o k = v.
Proof. unfold Js.get_bare. by intros ->. Qed.

Lemma dependent_get_own (f : Fetcher) (k : string) (v : jsval) :
  cslDependentShortNames f !! k = Some v -> dependent_get f k = v.
Proof.
  intros Hk. unfold dependent_get.
  destruct (dependentProto f); [by apply get_own | by apply get_bare_own].
Qed.

(** With [Object.prototype] or without it, the table answers
    [undefined] for a name only when the object literal does. *)
Lemma dependent_get_defined (f : Fetcher) (k : string) :
  typeof (dependent_get f k) <> "undefined" ->
  typeof (Js.get (cslDependentShortNames f) k) <> "undefined".
Proof.
  unfold dependent_get, Js.get, Js.get_bare.
  destruct (dependentProto f); [done |].
  by destruct (cslDependentShortNames f !! k).
Qed.

Lemma dependent_read_possible (f : Fetcher) (k : string) :
  independent f k = false -> dependent f k = true -> read_possible f k = true.
Proof.
  unfold dependent, read_possible. intros -> Hd. simpl.
  apply negb_true_iff, String.eqb_neq, dependent_get_defined.
  by apply String.eqb_neq, negb_true_iff.
Qed.

Lemma dependent_set_cslPath (f : Fetcher) (k : string) (v : jsval) :
  cslPath (dependent_set f k v) = cslPath f.
Proof. unfold dependent_set. by repeat case_match. Qed.

Lemma dependent_set_cslShortNames (f : Fetcher) (k : string) (v : jsval) :
  cslShortNames (dependent_set f k v) = cslShortNames f.
Proof. unfold dependent_set. by repeat case_match. Qed.

Lemma dependent_set_proto (f : Fetcher) (k : string) (v : jsval) :
  dependentProto (dependent_set f k v) = true -> dependentProto f = true.
Proof. unfold dependent_set. by repeat case_match. Qed.

(** The assignment stores [v] under [k], unless [k] is the accessor
    [__proto__] of a table that still has [Object.prototype]. *)
Lemma dependent_set_lookup (f : Fetcher) (k k' : string) (v : jsval) :
  cslDependentShortNames (dependent_set f k v) !! k'
  = if decide (k = k' /\ ~ (dependentProto f = true /\ k = "__proto__"))
    then Some v else cslDependentShortNames f !! k'.
Proof.
  unfold dependent_set.
  destruct (dependentProto f) eqn:Hp, (String.eqb_spec k "__proto__") as [->|Hk];
    simpl.
  - rewrite decide_False by tauto. by destruct v.
  - rewrite lookup_insert. repeat case_decide; intuition (subst; congruence).
  - rewrite lookup_insert. repeat case_decide; intuition (subst; congruence).
  - rewrite lookup_insert. repeat case_decide; intuition (subst; congruence).
Qed.

Lemma dependent_set_dom (f : Fetcher) (k : string) (v : jsval) :
  dom (cslDependentShortNames f)
    ⊆ dom (cslDependentShortNames (dependent_set f k v))
  /\ dom (cslDependentShortNames (dependent_set f k v))
       ⊆ {[k]} ∪ dom (cslDependentShortNames f).
Proof.
  unfold dependent_set.
  destruct (dependentProto f && String.eqb k "__proto__").
  - destruct v; simpl; set_solver.
  - simpl. rewrite dom_insert_L. set_solver.
Qed.

Lemma dependent_set_wf (f : Fetcher) (k : string) (v : jsval) :
  registry_wf f -> registry_wf (dependent_set f k v).
Proof.
  intros (Hp & Hd & Hall). unfold registry_wf.
  rewrite dependent_set_cslShortNames. split_and!; [done | | done].
  intros Hproto. pose proof (dependent_set_proto _ _ _ Hproto) as Hf.
  rewrite dependent_set_lookup. case_decide as Hdec; [| by apply Hd].
  destruct Hdec as [-> Hn]. tauto.
Qed.

Section Steps.

Context (url_parse : string -> ParsedUrl) (linkElements : string -> list LinkEl).

Lemma fetchStyle_fetcher readFile (this : Fetcher) (zcreq : ZcReq) :
  new_fetcher (fetchStyle readFile this zcreq) = this.
Proof. unfold fetchStyle. repeat (case_match; simpl; try done). Qed.

(** The continuation of a read leaves the fetcher as it is, or assigns
    what [readDependent] found in the data to the entry of the name. *)
Lemma resolveStyle_onRead_fetcher (k : string) (result : FileResult)
    (this : Fetcher) (zcreq : ZcReq) :
  let out := resolveStyle_onRead url_parse linkElements k result this zcreq in
  new_fetcher out = this
  \/ exists data parentStyle,
       result = FsData data
       /\ readDependent linkElements data = Some parentStyle
       /\ new_fetcher out = dependent_set this k (parent_value parentStyle).
Proof.
  unfold resolveStyle_onRead.
  destruct result as [err | data]; [by left |].
  destruct (readDependent linkElements data) as [[p |] |] eqn:Hread;
    [ | right; by exists data, None | by left].
  right. exists data, (Some p).
  by destruct (processStyleIdentifier url_parse p).
Qed.

(** A call that returns without starting a read leaves the fetcher as it
    is. *)
Lemma resolveStyle_call_returned (this : Fetcher) (zcreq : ZcReq) (out : Outcome) :
  resolveStyle_call url_parse this zcreq = Returned out ->
  new_fetcher out = this.
Proof.
  unfold resolveStyle_call.
  repeat (case_match; simpl; try done); by intros [= <-].
Qed.

(** A call starts a read only for a name that is not independent and
    passes the test for a dependent style; the file is that of the name. *)
Lemma resolveStyle_call_reading (this : Fetcher) (zcreq : ZcReq)
    (filename k : string) :
  resolveStyle_call url_parse this zcreq = Reading filename k ->
  k = request_key zcreq
  /\ filename = dependent_file this k
  /\ independent this k = false
  /\ dependent this k = true
  /\ forall p, dependent_get this k <> VString p.
Proof.
  unfold resolveStyle_call, request_key, dependent_file.
  destruct (independent this _) eqn:Hi; [done |].
  destruct (dependent this _) eqn:Hd; [| done].
  destruct (dependent_get this _) eqn:Hg; try done;
    intros [= <- <-]; split_and!; try done; intros p; congruence.
Qed.

Lemma resolveStyle_cslShortNames readFile (this : Fetcher) (zcreq : ZcReq) :
  cslShortNames
    (new_fetcher (resolveStyle url_parse linkElements readFile this zcreq))
  = cslShortNames this.
Proof.
  unfold resolveStyle.
  destruct (resolveStyle_call url_parse this zcreq) as [out | filename k] eqn:Hc.
  - by rewrite (resolveStyle_call_returned _ _ _ Hc).
  - simpl.
    destruct (resolveStyle_onRead_fetcher k (readFile filename) this zcreq)
      as [-> | (data & p & _ & _ & ->)]; [done |].
    apply dependent_set_cslShortNames.
Qed.

Lemma resolveStyle_cslPath readFile (this : Fetcher) (zcreq : ZcReq) :
  cslPath (new_fetcher (resolveStyle url_parse linkElements readFile this zcreq))
  = cslPath this.
Proof.
  unfold resolveStyle.
  destruct (resolveStyle_call url_parse this zcreq) as [out | filename k] eqn:Hc.
  - by rewrite (resolveStyle_call_returned _ _ _ Hc).
  - simpl.
    destruct (resolveStyle_onRead_fetcher k (readFile filename) this zcreq)
      as [-> | (data & p & _ & _ & ->)]; [done |].
    apply dependent_set_cslPath.
Qed.


Section Storage.

Context (allowed : string -> FileResult -> Prop).

Lemma step_in_cslShortNames (f f' : Fetcher) :
  step_in url_parse linkElements allowed f f' ->
  cslShortNames f' = cslShortNames f.
Proof.
  intros [k result this zcreq _ _].
  destruct (resolveStyle_onRead_fetcher k result this zcreq)
    as [-> | (data & p & _ & _ & ->)]; [done |].
  apply dependent_set_cslShortNames.
Qed.

Lemma step_in_cslPath (f f' : Fetcher) :
  step_in url_parse linkElements allowed f f' -> cslPath f' = cslPath f.
Proof.
  intros [k result this zcreq _ _].
  destruct (resolveStyle_onRead_fetcher k result this zcreq)
    as [-> | (data & p & _ & _ & ->)]; [done |].
  apply dependent_set_cslPath.
Qed.

Lemma step_in_wf (f f' : Fetcher) :
  step_in url_parse linkElements allowed f f' ->
  registry_wf f -> registry_wf f'.
Proof.
  intros [k result this zcreq _ _] Hwf.
  destruct (resolveStyle_onRead_fetcher k result this zcreq)
    as [-> | (data & p & _ & _ & ->)]; [done |].
  by apply dependent_set_wf.
Qed.

Lemma steps_in_cslShortNames (f f' : Fetcher) :
  rtc (step_in url_parse linkElements allowed) f f' ->
  cslShortNames f' = cslShortNames f.
Proof.
  induction 1 as [|f1 f2 f3 H12 _ IH]; [done |].
  by rewrite IH, (step_in_cslShortNames _ _ H12).
Qed.

Lemma steps_in_cslPath (f f' : Fetcher) :
  rtc (step_in url_parse linkElements allowed) f f' ->
  cslPath f' = cslPath f.
Proof.
  induction 1 as [|f1 f2 f3 H12 _ IH]; [done |].
  by rewrite IH, (step_in_cslPath _ _ H12).
Qed.

(** A step of a storage is a step, whatever the storage. *)
Lemma step_in_step (f f' : Fetcher) :
  step_in url_parse linkElements allowed f f' ->
  step url_parse linkElements f f'.
Proof. intros [k result this zcreq Hk _]. by constructor. Qed.

Lemma steps_in_steps (f f' : Fetcher) :
  rtc (step_in url_parse linkElements allowed) f f' ->
  rtc (step url_parse linkElements) f f'.
Proof.
  induction 1 as [|f1 f2 f3 H12 _ IH]; [done |].
  eapply rtc_l; [by apply step_in_step | done].
Qed.

(** A whole call of [resolveStyle], with nothing between the call and
    the completion of its read, is no step or one step. *)
Lemma resolveStyle_steps_in readFile (this : Fetcher) (zcreq : ZcReq) :
  (forall filename, allowed filename (readFile filename)) ->
  rtc (step_in url_parse linkElements allowed) this
    (new_fetcher (resolveStyle url_parse linkElements readFile this zcreq)).
Proof.
  intros Hallowed. unfold resolveStyle.
  destruct (resolveStyle_call url_parse this zcreq) as [out | filename k] eqn:Hc.
  - by rewrite (resolveStyle_call_returned _ _ _ Hc).
  - apply resolveStyle_call_reading in Hc as (-> & -> & Hi & Hd & _). simpl.
    apply rtc_once. constructor; [by apply dependent_read_possible | done].
Qed.

(** While every read of the file of [k] that gives data gives the parent
    [p], an entry that holds [p] goes on holding it. *)
Lemma step_in_resolved_stable (f f' : Fetcher) (k p : string) :
  (forall data,
     allowed (dependent_file f k) (FsData data) ->
     readDependent linkElements data = Some (Some p)) ->
  step_in url_parse linkElements allowed f f' ->
  cslDependentShortNames f !! k = Some (VString p) ->
  cslDependentShortNames f' !! k = Some (VString p).
Proof.
  intros Hstorage Hstep. destruct Hstep as [k' result this zcreq _ Hallowed].
  intros Hk.
  destruct (resolveStyle_onRead_fetcher k' result this zcreq)
    as [-> | (data & q & -> & Hq & ->)]; [done |].
  rewrite dependent_set_lookup. case_decide as Hdec; [| done].
  destruct Hdec as [-> _].
  rewrite (Hstorage data Hallowed) in Hq. by injection Hq as <-.
Qed.

Lemma steps_in_resolved_stable (f f' : Fetcher) (k p : string) :
  (forall data,
     allowed (dependent_file f k) (FsData data) ->
     readDependent linkElements data = Some (Some p)) ->
  rtc (step_in url_parse linkElements allowed) f f' ->
  cslDependentShortNames f !! k = Some (VString p) ->
  cslDependentShortNames f' !! k = Some (VString p).
Proof.
  intros Hstorage Hsteps. induction Hsteps as [|f1 f2 f3 H12 _ IH]; [done |].
  intros Hk. apply IH.
  - unfold dependent_file in *. by rewrite (step_in_cslPath _ _ H12).
  - by eapply step_in_resolved_stable.
Qed.

(** A read that can complete in one state can complete in every later
    one: its name stays outside the independent table, and what made it
    pass the test for a dependent style stays. *)
Lemma step_in_read_possible (f f' : Fetcher) (k : string) :
  step_in url_parse linkElements allowed f f' ->
  read_possible f k = true -> read_possible f' k = true.
Proof.
  intros Hstep. pose proof (step_in_cslShortNames _ _ Hstep) as Hnames.
  destruct Hstep as [k' result this zcreq _ _].
  unfold read_possible. rewrite (independent_ext this _ _ Hnames).
  intros [-> Hd%negb_true_iff%String.eqb_neq]%andb_true_iff. simpl.
  apply negb_true_iff, String.eqb_neq.
  destruct (resolveStyle_onRead_fetcher k' result this zcreq)
    as [-> | (data & p & _ & _ & ->)]; [done |].
  unfold Js.get in *. rewrite dependent_set_lookup.
  case_decide; [by destruct p | done].
Qed.

Lemma steps_in_read_possible (f f' : Fetcher) (k : string) :
  rtc (step_in url_parse linkElements allowed) f f' ->
  read_possible f k = true -> read_possible f' k = true.
Proof. induction 1; eauto using step_in_read_possible. Qed.

End Storage.

(** The read that a call starts can complete in every state that the
    fetcher reaches from the state of the call. *)
Lemma resolveStyle_call_read_possible (this this' : Fetcher) (zcreq : ZcReq)
    (filename k : string) :
  resolveStyle_call url_parse this zcreq = Reading filename k ->
  rtc (step url_parse linkElements) this this' ->
  read_possible this' k = true.
Proof.
  intros (_ & _ & Hi & Hd & _)%resolveStyle_call_reading Hsteps.
  eapply steps_in_read_possible; [exact Hsteps |].
  by apply dependent_read_possible.
Qed.

Lemma resolveStyle_steps readFile (this : Fetcher) (zcreq : ZcReq) :
  rtc (step url_parse linkElements) this
    (new_fetcher (resolveStyle url_parse linkElements readFile this zcreq)).
Proof. by apply resolveStyle_steps_in. Qed.

Lemma step_cslShortNames (f f' : Fetcher) :
  step url_parse linkElements f f' -> cslShortNames f' = cslShortNames f.
Proof. apply step_in_cslShortNames. Qed.

Lemma step_wf (f f' : Fetcher) :
  step url_parse linkElements f f' -> registry_wf f -> registry_wf f'.
Proof. apply step_in_wf. Qed.

Lemma steps_wf (f f' : Fetcher) :
  rtc (step url_parse linkElements) f f' -> registry_wf f -> registry_wf f'.
Proof. induction 1; eauto using step_wf. Qed.

Lemma reachable_wf (f : Fetcher) :
  reachable url_parse linkElements f -> registry_wf f.
Proof.
  intros (path & dir & depDir & Hsteps).
  eapply steps_wf; [done | apply init_wf].
Qed.

Lemma steps_cslShortNames (f f' : Fetcher) :
  rtc (step url_parse linkElements) f f' -> cslShortNames f' = cslShortNames f.
Proof. apply steps_in_cslShortNames. Qed.

Lemma steps_cslPath (f f' : Fetcher) :
  rtc (step url_parse linkElements) f f' -> cslPath f' = cslPath f.
Proof. apply steps_in_cslPath. Qed.

(** A step keeps the two sets of own names apart. *)
Lemma step_disjoint (f f' : Fetcher) :
  step url_parse linkElements f f' -> registry_wf f ->
  dom (cslShortNames f) ## dom (cslDependentShortNames f) ->
  dom (cslShortNames f') ## dom (cslDependentShortNames f').
Proof.
  intros Hstep (_ & _ & Hall) Hdisj.
  rewrite (step_cslShortNames _ _ Hstep).
  destruct Hstep as [k result this zcreq Hk _].
  destruct (resolveStyle_onRead_fetcher k result this zcreq)
    as [-> | (data & p & _ & _ & ->)]; [done |].
  apply andb_true_iff in Hk as [Hind%negb_true_iff _].
  apply (independent_false_not_own _ _ Hall) in Hind.
  apply not_elem_of_dom in Hind.
  intros x Hx Hx'.
  apply (dependent_set_dom this k (parent_value p)) in Hx'.
  apply elem_of_union in Hx' as [->%elem_of_singleton | Hx'];
    [by apply Hind | exact (Hdisj x Hx Hx')].
Qed.

End Steps.

(** ** processStyleIdentifier *)

(** C10.  When the input parses as a URL whose host is set and is not
    [www.zotero.org], [processStyleIdentifier] returns a URL object, never
    an error string.  If the parsed pathname is a string, [shortName] is
    that pathname without its first 8 characters, whether or not they are
    [/styles/] (the empty string when the pathname has at most 8
    characters); if the pathname is not a string, [shortName] is not
    set. *)
Theorem processStyleIdentifier_other_host
    (url_parse : string -> ParsedUrl) (style : string) :
  falsy (host (url_parse style)) = false ->
  host_is (host (url_parse style)) canonical_host = false ->
  exists u,
    processStyleIdentifier url_parse style = UrlObjV u
    /\ parsed u = url_parse style
    /\ (forall pathname0, pathname (url_parse style) = Some pathname0 ->
        exists name,
          shortName u = Some name
          /\ (forall a b, pathname0 = a +:+ b -> String.length a = 8 -> name = b)
          /\ (String.length pathname0 <= 8 -> name = ""))
    /\ (pathname (url_parse style) = None -> shortName u = None).
Proof.
  intros Hhost Hother. unfold processStyleIdentifier. rewrite Hhost, Hother.
  destruct (pathname (url_parse style)) as [p|] eqn:Hp.
  - eexists. split_and!; [done | done | | done].
    intros ? [= <-]. exists (substr_from 8 p). split_and!; [done | |].
    + intros a b -> <-. apply substr_from_app.
    + apply substr_from_short.
  - eexists. split_and!; [done | done | done | done].
Qed.

Lemma processStyleIdentifier_other_host_witness :
  exists u,
    processStyleIdentifier NodeUrl.parse "http://example.org/ab" = UrlObjV u
    /\ shortName u = Some "".
Proof.
  destruct (processStyleIdentifier_other_host NodeUrl.parse
              "http://example.org/ab" eq_refl eq_refl)
    as (u & Hu & _ & Hpath & _).
  exists u. split; [exact Hu |].
  destruct (Hpath "/ab" eq_refl) as (name & Hname & _ & Hshort).
  rewrite Hname. f_equal. apply Hshort. simpl. lia.
Defined.

(** The short-name branch: the input is kept as [shortName]. *)
Lemma processStyleIdentifier_short_name
    (url_parse : string -> ParsedUrl) (style : string) :
  falsy (host (url_parse style)) = true ->
  processStyleIdentifier url_parse style
  = UrlObjV {| parsed := url_parse (canonical_url style);
               shortName := Some style |}.
Proof. intros H. unfold processStyleIdentifier. by rewrite H. Qed.

(** The canonical branch, when the pathname starts with [/styles/]. *)
Lemma processStyleIdentifier_canonical
    (url_parse : string -> ParsedUrl) (style name : string) :
  host (url_parse style) = Some canonical_host ->
  pathname (url_parse style) = Some ("/styles/" +:+ name) ->
  processStyleIdentifier url_parse style
  = UrlObjV {| parsed := url_parse style; shortName := Some name |}.
Proof.
  intros Hh Hp.
  pose proof (substr_to_app "/styles/" name) as Hto.
  pose proof (substr_from_app "/styles/" name) as Hfrom.
  change (String.length "/styles/") with 8 in Hto, Hfrom.
  unfold processStyleIdentifier. rewrite Hh, Hp.
  change (falsy (Some canonical_host)) with false.
  unfold host_is. rewrite String.eqb_refl, Hto, Hfrom.
  by rewrite String.eqb_refl.
Qed.

(** ** resolveStyle *)

(** C4.  When the short name of the request is an independent style,
    [resolveStyle] calls back once with success, reads no file, and leaves
    the request and the fetcher as they were. *)
Theorem resolveStyle_independent
    (url_parse : string -> ParsedUrl) (linkElements : string -> list LinkEl)
    (readFile : string -> FileResult) (this : Fetcher) (zcreq : ZcReq) :
  reachable url_parse linkElements this ->
  request_key zcreq ∈ dom (cslShortNames this) ->
  let out := resolveStyle url_parse linkElements readFile this zcreq in
  callbacks (trace out) = [None]
  /\ reads (trace out) = []
  /\ new_zcreq out = zcreq
  /\ new_fetcher out = this.
Proof.
  intros Hreach Hin. apply reachable_wf in Hreach as (_ & _ & Hall).
  apply elem_of_dom in Hin as [v Hv]. pose proof (Hall _ _ Hv) as ->.
  apply independent_own in Hv. unfold request_key in Hv.
  unfold resolveStyle, resolveStyle_call. by rewrite Hv.
Qed.

Lemma resolveStyle_independent_witness :
  let out := resolveStyle NodeUrl.parse example_linkElements example_readFile
               example_fetcher (request_for "apa") in
  callbacks (trace out) = [None]
  /\ reads (trace out) = []
  /\ new_zcreq out = request_for "apa"
  /\ new_fetcher out = example_fetcher.
Proof.
  apply resolveStyle_independent.
  - exists "./csl", ["apa.csl"; "README.md"],
      ["apa-variant.csl"; "chained.csl"; "broken.csl"; "nohref.csl"].
    apply rtc_refl.
  - apply elem_of_dom. exists (VBool true). reflexivity.
Defined.

(** A name that is no own property of either table and no property of
    [Object.prototype] is answered with the status 404. *)
Lemma resolveStyle_unknown
    (url_parse : string -> ParsedUrl) (linkElements : string -> list LinkEl)
    (readFile : string -> FileResult) (this : Fetcher) (zcreq : ZcReq) :
  cslShortNames this !! request_key zcreq = None ->
  cslDependentShortNames this !! request_key zcreq = None ->
  inherited (request_key zcreq) = VUndefined ->
  resolveStyle url_parse linkElements readFile this zcreq
  = {| new_fetcher := this; new_zcreq := zcreq;
       trace := [Callback (Some (ErrStatus 404 "Style not found"))] |}.
Proof.
  unfold request_key. intros Hi Hd Hp.
  unfold resolveStyle, resolveStyle_call, independent, dependent,
    dependent_get, Js.get, Js.get_bare.
  rewrite Hi, Hd, Hp. by destruct (dependentProto this).
Qed.

(** C6, at the request for the style [constructor].  The name is in
    neither listing, so it is an own property of neither table; the lookup
    in the dependent table finds the function inherited from
    [Object.prototype], the step takes the dependent branch, reads
    [./csl/dependent/constructor.csl] and hands the error of the read to
    its callback: no failure with status 404. *)
Theorem resolveStyle_constructor :
  request_key (request_for "constructor") = "constructor"
  /\ cslShortNames example_fetcher !! "constructor" = None
  /\ cslDependentShortNames example_fetcher !! "constructor" = None
  /\ trace (resolveStyle NodeUrl.parse example_linkElements example_readFile
              example_fetcher (request_for "constructor"))
     = [ReadFile "./csl/dependent/constructor.csl";
        Callback (Some (ErrFs "ENOENT"))].
Proof. split_and!; reflexivity. Qed.

(** ** fetchStyle *)

(** C7.  When the request carries a posted stylesheet, [fetchStyle] makes
    it the resolved content as it is and calls back once with success,
    without reading a file; the outcome is the same whatever identifier
    the request holds and whatever the registries and the storage are. *)
Theorem fetchStyle_posted
    (readFile : string -> FileResult) (this : Fetcher) (zcreq : ZcReq)
    (payload : string) :
  postedStyle zcreq = true ->
  postObj zcreq = Some {| styleXml := Some payload |} ->
  let out := fetchStyle readFile this zcreq in
  cslXml (new_zcreq out) = Some payload
  /\ callbacks (trace out) = [None]
  /\ reads (trace out) = []
  /\ new_fetcher out = this
  /\ forall readFile' this' i,
       let out' := fetchStyle readFile' this' (with_styleUrlObj zcreq i) in
       cslXml (new_zcreq out') = Some payload /\ trace out' = trace out.
Proof.
  intros Hposted Hpost. unfold fetchStyle. simpl. by rewrite Hposted, Hpost.
Qed.

Lemma fetchStyle_posted_witness :
  let out := fetchStyle example_readFile example_fetcher
               (request_posting "no-such-style" "<style>posted</style>") in
  cslXml (new_zcreq out) = Some "<style>posted</style>"
  /\ callbacks (trace out) = [None]
  /\ reads (trace out) = [].
Proof.
  destruct (fetchStyle_posted example_readFile example_fetcher
              (request_posting "no-such-style" "<style>posted</style>")
              "<style>posted</style>" eq_refl eq_refl)
    as (Hxml & Hcb & Hrd & _).
  split_and!; [exact Hxml | exact Hcb | exact Hrd].
Defined.

(** The number of times [fetchStyle] calls back: once, except for a
    request without posted style whose host is [www.zotero.org] and whose
    short name is not an independent style, where it never does. *)
Lemma fetchStyle_callbacks
    (readFile : string -> FileResult) (this : Fetcher) (zcreq : ZcReq) :
  List.length (callbacks (trace (fetchStyle readFile this zcreq)))
  = if negb (postedStyle zcreq)
       && host_is (id_host (styleUrlObj zcreq)) canonical_host
       && negb (independent this (request_key zcreq))
    then 0 else 1.
Proof.
  unfold fetchStyle, request_key.
  repeat (case_match; simpl in *; simplify_eq; try done).
Qed.

(** C1, at two requests with host [www.zotero.org]: one for the
    dependent style [apa-variant], one for a name in neither registry.
    [fetchStyle] returns without having called its callback and without a
    pending read: the step signals neither success nor failure. *)
Theorem fetchStyle_fallthrough (readFile : string -> FileResult) :
  id_host (styleUrlObj (request_for "apa-variant")) = Some "www.zotero.org"
  /\ cslDependentShortNames example_fetcher !! "apa-variant"
     = Some (VBool true)
  /\ trace (fetchStyle readFile example_fetcher (request_for "apa-variant"))
     = []
  /\ id_host (styleUrlObj (request_for "no-such-style"))
     = Some "www.zotero.org"
  /\ cslShortNames example_fetcher !! "no-such-style" = None
  /\ cslDependentShortNames example_fetcher !! "no-such-style" = None
  /\ trace (fetchStyle readFile example_fetcher (request_for "no-such-style"))
     = [].
Proof. split_and!; reflexivity. Qed.

(** ** Round trip of short names *)

(** C3, as stated, fails at the short name [foo?bar].  It parses without
    a host and is kept as [shortName]; in its canonical URL the part from
    [?] on is the query, not the pathname, and the short name that comes
    back is [foo]. *)
Lemma round_trip_fails_on_query :
  falsy (host (NodeUrl.parse "foo?bar")) = true
  /\ id_shortName (processStyleIdentifier NodeUrl.parse "foo?bar")
     = Some "foo?bar"
  /\ canonical_url "foo?bar" = "http://www.zotero.org/styles/foo?bar"
  /\ id_shortName
       (processStyleIdentifier NodeUrl.parse (canonical_url "foo?bar"))
     = Some "foo"
  /\ id_shortName
       (processStyleIdentifier NodeUrl.parse (canonical_url "foo?bar"))
     <> Some "foo?bar".
Proof. split_and!; try reflexivity. discriminate. Qed.

(** C3, amended.  A string [s] that parses without a host is its own
    short name; and when the canonical URL of [s] parses with host
    [www.zotero.org] and pathname [/styles/s], normalizing that URL gives
    the short name [s] again. *)
Theorem short_name_round_trip
    (url_parse : string -> ParsedUrl) (s : string) :
  falsy (host (url_parse s)) = true ->
  id_shortName (processStyleIdentifier url_parse s) = Some s
  /\ (host (url_parse (canonical_url s)) = Some canonical_host ->
      pathname (url_parse (canonical_url s)) = Some ("/styles/" +:+ s) ->
      id_shortName (processStyleIdentifier url_parse (canonical_url s))
      = Some s).
Proof.
  intros Hs. split.
  - by rewrite processStyleIdentifier_short_name.
  - intros Hh Hp. by rewrite (processStyleIdentifier_canonical _ _ s).
Qed.

Lemma short_name_round_trip_witness :
  id_shortName (processStyleIdentifier NodeUrl.parse "apa") = Some "apa"
  /\ id_shortName (processStyleIdentifier NodeUrl.parse (canonical_url "apa"))
     = Some "apa".
Proof.
  destruct (short_name_round_trip NodeUrl.parse "apa" eq_refl) as [Hs Hc].
  split; [exact Hs | exact (Hc eq_refl eq_refl)].
Defined.

(** ** Failure of the parent's normalization *)




(** ** Memoization of the parent *)

(** A resolved entry is answered from the table. *)
Lemma resolveStyle_cache_hit
    (url_parse : string -> ParsedUrl) (linkElements : string -> list LinkEl)
    (readFile : string -> FileResult) (this : Fetcher) (zcreq : ZcReq)
    (parentStyle : string) :
  independent this (request_key zcreq) = false ->
  cslDependentShortNames this !! request_key zcreq
  = Some (VString parentStyle) ->
  resolveStyle url_parse linkElements readFile this zcreq
  = {| new_fetcher := this;
       new_zcreq := with_styleUrlObj zcreq
                      (processStyleIdentifier url_parse parentStyle);
       trace := [Callback None] |}.
Proof.
  unfold request_key. intros Hind Hdep.
  unfold resolveStyle, resolveStyle_call, dependent.
  by rewrite Hind, (dependent_get_own _ _ _ Hdep).
Qed.

(** What the continuation of a read has done when it has called back
    with success. *)
Lemma resolveStyle_onRead_success
    (url_parse : string -> ParsedUrl) (linkElements : string -> list LinkEl)
    (k : string) (result : FileResult) (this : Fetcher) (zcreq : ZcReq) :
  callbacks (trace (resolveStyle_onRead url_parse linkElements k result
                      this zcreq)) = [None] ->
  exists data parentStyle,
    result = FsData data
    /\ readDependent linkElements data = Some (Some parentStyle)
    /\ resolveStyle_onRead url_parse linkElements k result this zcreq
       = {| new_fetcher := dependent_set this k (VString parentStyle);
            new_zcreq :=
              with_styleUrlObj zcreq
                (processStyleIdentifier url_parse parentStyle);
            trace := [Callback None] |}.
Proof.
  unfold resolveStyle_onRead.
  destruct result as [err | data]; simpl; [intros [=] |].
  destruct (readDependent linkElements data) as [[parentStyle |] |] eqn:Hparent;
    simpl; [| intros [=] | intros [=]].
  destruct (processStyleIdentifier url_parse parentStyle) as [u | msg] eqn:Hid;
    simpl; [| intros [=]].
  intros _. exists data, parentStyle. by rewrite Hid.
Qed.

(** C5, as stated, fails when two calls for the same unresolved name are
    in flight and the file changes between their reads.  Both calls for
    [apa-variant] start a read in the state that [init] left.  The first
    read completes with the file as installed: the continuation succeeds
    and memoizes the parent [apa].  The second read completes with the
    edited file: its continuation assigns the parent [mla] to the entry,
    which held [apa].  A call made after that reads no file and replaces
    the identifier by the normalization of [mla], not of the parent that
    the first successful call memoized. *)
Lemma resolveStyle_memo_overwritten :
  let zcreq := request_for "apa-variant" in
  let first :=
    resolveStyle_onRead NodeUrl.parse example_linkElements "apa-variant"
      (FsData apa_variant_xml) example_fetcher zcreq in
  let second :=
    resolveStyle_onRead NodeUrl.parse example_linkElements "apa-variant"
      (FsData apa_variant_edited_xml) (new_fetcher first) zcreq in
  let later :=
    resolveStyle NodeUrl.parse example_linkElements example_readFile
      (new_fetcher second) zcreq in
  resolveStyle_call NodeUrl.parse example_fetcher zcreq
  = Reading "./csl/dependent/apa-variant.csl" "apa-variant"
  /\ trace first = [Callback None]
  /\ cslDependentShortNames (new_fetcher first) !! "apa-variant"
     = Some (VString "http://www.zotero.org/styles/apa")
  /\ id_shortName (styleUrlObj (new_zcreq first)) = Some "apa"
  /\ read_possible (new_fetcher first) "apa-variant" = true
  /\ readDependent example_linkElements apa_variant_edited_xml
     = Some (Some "http://www.zotero.org/styles/mla")
  /\ trace second = [Callback None]
  /\ cslDependentShortNames (new_fetcher second) !! "apa-variant"
     = Some (VString "http://www.zotero.org/styles/mla")
  /\ trace later = [Callback None]
  /\ id_shortName (styleUrlObj (new_zcreq later)) = Some "mla".
Proof. cbv zeta. split_and!; vm_compute; reflexivity. Qed.

(** C5, amended.  Let every read of the file of a dependent short name
    that gives data give the same parent string, and let the continuation
    of a read for that name succeed and leave that parent in the entry:
    the request of that call holds the normalization of the parent.  From
    then on, whatever reads complete in between, the entry holds the same
    parent, and every call of [resolveStyle] on that name reads no file,
    changes nothing in the fetcher, calls back once with success and
    replaces the identifier of the request by the normalization of that
    parent, leaving the other fields of the request as they were. *)
Theorem resolveStyle_memoized
    (url_parse : string -> ParsedUrl) (linkElements : string -> list LinkEl)
    (allowed : string -> FileResult -> Prop)
    (result : FileResult) (this : Fetcher) (zcreq : ZcReq)
    (parentStyle : string)
    (this2 : Fetcher) (readFile2 : string -> FileResult) (zcreq2 : ZcReq) :
  reachable url_parse linkElements this ->
  read_possible this (request_key zcreq) = true ->
  (forall data,
     allowed (dependent_file this (request_key zcreq)) (FsData data) ->
     readDependent linkElements data = Some (Some parentStyle)) ->
  callbacks
    (trace (resolveStyle_onRead url_parse linkElements (request_key zcreq)
              result this zcreq)) = [None] ->
  cslDependentShortNames
    (new_fetcher (resolveStyle_onRead url_parse linkElements
                    (request_key zcreq) result this zcreq))
    !! request_key zcreq = Some (VString parentStyle) ->
  rtc (step_in url_parse linkElements allowed)
    (new_fetcher (resolveStyle_onRead url_parse linkElements
                    (request_key zcreq) result this zcreq))
    this2 ->
  request_key zcreq2 = request_key zcreq ->
  styleUrlObj
    (new_zcreq (resolveStyle_onRead url_parse linkElements
                  (request_key zcreq) result this zcreq))
  = processStyleIdentifier url_parse parentStyle
  /\ cslDependentShortNames this2 !! request_key zcreq
     = Some (VString parentStyle)
  /\ trace (resolveStyle url_parse linkElements readFile2 this2 zcreq2)
     = [Callback None]
  /\ new_fetcher (resolveStyle url_parse linkElements readFile2 this2 zcreq2)
     = this2
  /\ styleUrlObj
       (new_zcreq (resolveStyle url_parse linkElements readFile2 this2 zcreq2))
     = processStyleIdentifier url_parse parentStyle
  /\ postedStyle
       (new_zcreq (resolveStyle url_parse linkElements readFile2 this2 zcreq2))
     = postedStyle zcreq2
  /\ postObj
       (new_zcreq (resolveStyle url_parse linkElements readFile2 this2 zcreq2))
     = postObj zcreq2
  /\ cslXml
       (new_zcreq (resolveStyle url_parse linkElements readFile2 this2 zcreq2))
     = cslXml zcreq2.
Proof.
  intros Hreach Hposs Hstorage Hok Hnew Hsteps Hkey.
  apply reachable_wf in Hreach as (_ & Hproto & _).
  apply andb_true_iff in Hposs as [Hind%negb_true_iff _].
  destruct (resolveStyle_onRead_success _ _ _ _ _ _ Hok)
    as (data & parent & _ & _ & Hout).
  rewrite Hout in Hnew, Hsteps |- *. simpl in Hnew, Hsteps |- *.
  assert (parent = parentStyle) as ->.
  { rewrite dependent_set_lookup in Hnew. case_decide as Hdec.
    - by injection Hnew as ->.
    - destruct (dependentProto this) eqn:Hflag.
      + assert (request_key zcreq = "__proto__") as Heq.
        { destruct (decide (request_key zcreq = "__proto__")); [done |].
          exfalso. apply Hdec. split; [done |]. tauto. }
        rewrite Heq, (Hproto eq_refl) in Hnew. done.
      + exfalso. apply Hdec. split; [done |]. intros [[=] _]. }
  assert (cslDependentShortNames this2 !! request_key zcreq
          = Some (VString parentStyle)) as Hentry.
  { eapply steps_in_resolved_stable; [| exact Hsteps | exact Hnew].
    unfold dependent_file in *. by rewrite dependent_set_cslPath. }
  assert (independent this2 (request_key zcreq2) = false) as Hind2.
  { rewrite Hkey, (independent_ext this); [done |].
    rewrite (steps_in_cslShortNames _ _ _ _ _ Hsteps).
    apply dependent_set_cslShortNames. }
  rewrite <- Hkey in Hentry.
  rewrite (resolveStyle_cache_hit url_parse linkElements readFile2 this2 zcreq2
             parentStyle Hind2 Hentry).
  rewrite Hkey in Hentry. by split_and!.
Qed.

Lemma resolveStyle_memoized_witness :
  let zcreq := request_for "apa-variant" in
  let this1 :=
    new_fetcher (resolveStyle_onRead NodeUrl.parse example_linkElements
                   "apa-variant" (FsData apa_variant_xml) example_fetcher
                   zcreq) in
  let this2 :=
    new_fetcher (resolveStyle_onRead NodeUrl.parse example_linkElements
                   "chained" (FsData chained_xml) this1
                   (request_for "chained")) in
  cslDependentShortNames this2 !! "apa-variant"
  = Some (VString "http://www.zotero.org/styles/apa")
  /\ cslDependentShortNames this2 !! "chained"
     = Some (VString "apa-variant")
  /\ trace (resolveStyle NodeUrl.parse example_linkElements
              (fun _ => FsErr "EIO") this2 zcreq)
     = [Callback None]
  /\ styleUrlObj
       (new_zcreq (resolveStyle NodeUrl.parse example_linkElements
                     (fun _ => FsErr "EIO") this2 zcreq))
     = processStyleIdentifier NodeUrl.parse "http://www.zotero.org/styles/apa".
Proof.
  cbv zeta.
  assert (reachable NodeUrl.parse example_linkElements example_fetcher)
    as Hreach.
  { exists "./csl", ["apa.csl"; "README.md"],
      ["apa-variant.csl"; "chained.csl"; "broken.csl"; "nohref.csl"].
    apply rtc_refl. }
  destruct (resolveStyle_memoized NodeUrl.parse example_linkElements
              (fun filename result => result = example_readFile filename)
              (FsData apa_variant_xml) example_fetcher
              (request_for "apa-variant")
              "http://www.zotero.org/styles/apa"
              (new_fetcher
                 (resolveStyle_onRead NodeUrl.parse example_linkElements
                    "chained" (FsData chained_xml)
                    (new_fetcher
                       (resolveStyle_onRead NodeUrl.parse example_linkElements
                          "apa-variant" (FsData apa_variant_xml)
                          example_fetcher (request_for "apa-variant")))
                    (request_for "chained")))
              (fun _ => FsErr "EIO") (request_for "apa-variant") Hreach)
    as (_ & Hentry & Htrace & _ & Hid & _).
  - vm_compute. reflexivity.
  - intros data Hdata. vm_compute in Hdata. injection Hdata as ->.
    vm_compute. reflexivity.
  - vm_compute. reflexivity.
  - vm_compute. reflexivity.
  - apply rtc_once.
    apply (step_read NodeUrl.parse example_linkElements
             (fun filename result => result = example_readFile filename)
             "chained" (FsData chained_xml)).
    + vm_compute. reflexivity.
    + vm_compute. reflexivity.
  - reflexivity.
  - split_and!; [exact Hentry | vm_compute; reflexivity | exact Htrace
                 | exact Hid].
Defined.

(** ** One hop per step *)

(** Lookup after the assignment of a parent string. *)
Lemma dependent_get_set (f : Fetcher) (k k' p : string) :
  dependent_get (dependent_set f k (VString p)) k'
  = if decide (k = k' /\ ~ (dependentProto f = true /\ k = "__proto__"))
    then VString p else dependent_get f k'.
Proof.
  pose proof (dependent_set_lookup f k k' (VString p)) as Hl.
  assert (dependentProto (dependent_set f k (VString p)) = dependentProto f)
    as Hflag.
  { unfold dependent_set. by repeat case_match. }
  unfold dependent_get, Js.get, Js.get_bare. rewrite Hflag, Hl.
  by case_decide; destruct (dependentProto f).
Qed.

(** C8.  Let the short name of the request be a dependent style whose
    parent, memoized or read from its file, normalizes to an identifier
    that is itself a dependent style.  [resolveStyle] calls back once with
    success and the request holds the normalized parent: the step has
    advanced the identifier by this one hop.  It has read at most the file
    of the requested style, it has left the entry of the parent alone, and
    the parent is still a dependent style for the next step to resolve. *)
Theorem resolveStyle_one_hop
    (url_parse : string -> ParsedUrl) (linkElements : string -> list LinkEl)
    (readFile : string -> FileResult) (this : Fetcher) (zcreq : ZcReq)
    (parentStyle : string) (u : UrlObj) :
  independent this (request_key zcreq) = false ->
  dependent this (request_key zcreq) = true ->
  (dependent_get this (request_key zcreq) = VString parentStyle
   \/ ((forall p, dependent_get this (request_key zcreq) <> VString p)
       /\ exists data,
            readFile (dependent_file this (request_key zcreq)) = FsData data
            /\ readDependent linkElements data = Some (Some parentStyle))) ->
  processStyleIdentifier url_parse parentStyle = UrlObjV u ->
  independent this (Js.key (shortName u)) = false ->
  dependent this (Js.key (shortName u)) = true ->
  let out := resolveStyle url_parse linkElements readFile this zcreq in
  callbacks (trace out) = [None]
  /\ new_zcreq out = with_styleUrlObj zcreq (UrlObjV u)
  /\ styleUrlObj (new_zcreq out) = UrlObjV u
  /\ (reads (trace out) = []
      \/ reads (trace out) = [dependent_file this (request_key zcreq)])
  /\ independent (new_fetcher out) (Js.key (shortName u)) = false
  /\ dependent (new_fetcher out) (Js.key (shortName u)) = true
  /\ (Js.key (shortName u) <> request_key zcreq ->
      dependent_get (new_fetcher out) (Js.key (shortName u))
      = dependent_get this (Js.key (shortName u))).
Proof.
  unfold request_key, dependent_file.
  intros Hind Hdep Hparent Hid Hpind Hpdep.
  unfold resolveStyle, resolveStyle_call.
  rewrite Hind, Hdep. destruct Hparent as [Hget | (Hnot & data & Hfile & Hrd)].
  - rewrite Hget, Hid. simpl. split_and!; auto.
  - assert (forall v, dependent_get this
                        (Js.key (id_shortName (styleUrlObj zcreq))) = v ->
              match v with VString _ => False | _ => True end) as Hcase.
    { intros [] Hv; try done. by apply (Hnot s). }
    destruct (dependent_get this
                (Js.key (id_shortName (styleUrlObj zcreq))))
      as [| | p | | |] eqn:Hv;
      try (by destruct (Hcase _ eq_refl));
      unfold resolveStyle_onRead; rewrite Hfile, Hrd, Hid; simpl;
      (split_and!; [done | done | done | by right | | | ]);
      unfold dependent, independent in *;
      rewrite ?dependent_set_cslShortNames, ?dependent_get_set; try done;
      case_decide; intuition (subst; congruence).
Qed.

Lemma resolveStyle_one_hop_witness :
  example_readFile "./csl/dependent/chained.csl" = FsData chained_xml
  /\ rewrite_xml chained_xml
     = "<cslstyle xmlns='http://purl.org/net/xbiblio/csl' version='1.0'><info><link href='apa-variant' rel='independent-parent'/></info></cslstyle>"
  /\ callbacks (trace (resolveStyle NodeUrl.parse example_linkElements
                         example_readFile example_fetcher
                         (request_for "chained")))
     = [None]
  /\ id_shortName
       (styleUrlObj
          (new_zcreq (resolveStyle NodeUrl.parse example_linkElements
                        example_readFile example_fetcher
                        (request_for "chained"))))
     = Some "apa-variant"
  /\ dependent
       (new_fetcher (resolveStyle NodeUrl.parse example_linkElements
                       example_readFile example_fetcher
                       (request_for "chained")))
       "apa-variant" = true.
Proof.
  destruct (resolveStyle_one_hop NodeUrl.parse example_linkElements
              example_readFile example_fetcher (request_for "chained")
              "apa-variant"
              {| parsed := NodeUrl.parse (canonical_url "apa-variant");
                 shortName := Some "apa-variant" |}
              eq_refl eq_refl)
    as (Hcb & _ & Hreq & _ & _ & Hdep & _).
  - right. split; [intros p; vm_compute; discriminate |].
    exists chained_xml. split; vm_compute; reflexivity.
  - reflexivity.
  - reflexivity.
  - reflexivity.
  - split_and!; [vm_compute; reflexivity | vm_compute; reflexivity
                 | exact Hcb | | exact Hdep].
    rewrite Hreq. reflexivity.
Defined.

(** ** The two registries *)

(** C9, as stated, fails when a [.csl] file name occurs in both listings:
    [init] fills the two tables from the two listings independently, and
    the base name becomes an own property of both. *)
Lemma init_overlapping_listings :
  "a" ∈ dom (cslShortNames (init "./csl" ["a.csl"] ["a.csl"]))
  /\ "a" ∈ dom (cslDependentShortNames (init "./csl" ["a.csl"] ["a.csl"]))
  /\ ~ (dom (cslShortNames (init "./csl" ["a.csl"] ["a.csl"]))
        ## dom (cslDependentShortNames (init "./csl" ["a.csl"] ["a.csl"]))).
Proof.
  assert ("a" ∈ dom (scan_dir ["a.csl"])) as Ha.
  { apply elem_of_dom. exists (VBool true). reflexivity. }
  split_and!; [exact Ha | exact Ha |].
  intros Hdisj. exact (Hdisj "a" Ha Ha).
Qed.

(** Any [.csl] file present in both directories puts its base name in
    both tables. *)
Lemma init_overlap (path : string) (dir depDir : list string)
    (filename : string) :
  filename ∈ dir -> filename ∈ depDir ->
  substr_last 4 filename = csl_suffix ->
  slice_but_last 4 filename <> "__proto__" ->
  slice_but_last 4 filename ∈ dom (cslShortNames (init path dir depDir))
  /\ slice_but_last 4 filename
     ∈ dom (cslDependentShortNames (init path dir depDir)).
Proof.
  intros Hd Hdep Hs Hk. simpl.
  split; apply elem_of_dom; exists (VBool true); apply scan_dir_lookup;
    (split_and!; [done | done |]); by exists filename.
Qed.

Lemma init_disjoint (path : string) (dir depDir : list string) :
  (forall filename,
     filename ∈ dir -> filename ∈ depDir ->
     substr_last 4 filename <> csl_suffix) ->
  dom (cslShortNames (init path dir depDir))
  ## dom (cslDependentShortNames (init path dir depDir)).
Proof.
  intros Hnone k Hi Hd. simpl in *.
  apply elem_of_dom in Hi as [vi Hi]. apply elem_of_dom in Hd as [vd Hd].
  apply scan_dir_lookup in Hi as (_ & _ & x & Hx & Hxs & Hxk).
  apply scan_dir_lookup in Hd as (_ & _ & y & Hy & Hys & Hyk).
  assert (x = y) as <-.
  { rewrite (csl_filename x Hxs), (csl_filename y Hys). congruence. }
  by apply (Hnone x).
Qed.

Lemma steps_disjoint
    (url_parse : string -> ParsedUrl) (linkElements : string -> list LinkEl)
    (f f' : Fetcher) :
  rtc (step url_parse linkElements) f f' -> registry_wf f ->
  dom (cslShortNames f) ## dom (cslDependentShortNames f) ->
  dom (cslShortNames f') ## dom (cslDependentShortNames f').
Proof. induction 1; eauto using step_wf, step_disjoint. Qed.

(** C9, amended.  When no [.csl] file name occurs in both directory
    listings, the own names of the two registries are disjoint after
    [init], and they are disjoint in every state that the fetcher reaches
    from there, whatever calls of [resolveStyle] and [fetchStyle] are made
    and in whatever order their reads complete. *)
Theorem registries_disjoint
    (url_parse : string -> ParsedUrl) (linkElements : string -> list LinkEl)
    (path : string) (dir depDir : list string) (this : Fetcher) :
  (forall filename,
     filename ∈ dir -> filename ∈ depDir ->
     substr_last 4 filename <> csl_suffix) ->
  rtc (step url_parse linkElements) (init path dir depDir) this ->
  dom (cslShortNames this) ## dom (cslDependentShortNames this).
Proof.
  intros Hnone Hsteps.
  eapply steps_disjoint; [exact Hsteps | apply init_wf | by apply init_disjoint].
Qed.

Lemma registries_disjoint_witness :
  dom (cslShortNames
         (new_fetcher (resolveStyle NodeUrl.parse example_linkElements
                         example_readFile example_fetcher
                         (request_for "apa-variant"))))
  ## dom (cslDependentShortNames
            (new_fetcher (resolveStyle NodeUrl.parse example_linkElements
                            example_readFile example_fetcher
                            (request_for "apa-variant")))).
Proof.
  apply (registries_disjoint NodeUrl.parse example_linkElements "./csl"
           ["apa.csl"; "README.md"]
           ["apa-variant.csl"; "chained.csl"; "broken.csl"; "nohref.csl"]).
  - intros filename Hd Hdep.
    apply list_elem_of_In in Hd. apply list_elem_of_In in Hdep.
    simpl in Hd, Hdep.
    destruct Hd as [<- | [<- | []]];
      destruct Hdep as [H | [H | [H | [H | []]]]]; discriminate H.
  - apply resolveStyle_steps.
Defined.

(** ** The parser model on the usual style names *)

Lemma span_all (p : ascii -> bool) (s : string) :
  NodeUrl.all_chars p s = true -> NodeUrl.span p s = (s, "").
Proof.
  induction s as [|c s IH]; simpl; [done |].
  intros [Hc Hs]%andb_prop. rewrite Hc, (IH Hs). done.
Qed.

Lemma span_stop (p : ascii -> bool) (a : string) (c : ascii) (r : string) :
  NodeUrl.all_chars p a = true -> p c = false ->
  NodeUrl.span p (a +:+ String c r) = (a, String c r).
Proof.
  intros Ha Hc. induction a as [|d a IH]; simpl in *.
  - by rewrite Hc.
  - apply andb_prop in Ha as [Hd Ha].
    change (String d a +:+ String c r) with (String d (a +:+ String c r)).
    simpl. by rewrite Hd, (IH Ha).
Qed.

Lemma span_snd_all (p q : ascii -> bool) (s : string) :
  NodeUrl.all_chars q s = true ->
  NodeUrl.all_chars q (snd (NodeUrl.span p s)) = true.
Proof.
  induction s as [|c s IH]; simpl; [done |].
  intros [Hc Hs]%andb_prop. destruct (p c); simpl; [by apply IH |].
  by rewrite Hc, Hs.
Qed.

Lemma all_chars_impl (p q : ascii -> bool) (s : string) :
  (forall c, p c = true -> q c = true) ->
  NodeUrl.all_chars p s = true -> NodeUrl.all_chars q s = true.
Proof.
  intros Hpq. induction s as [|c s IH]; simpl; [done |].
  intros [Hc Hs]%andb_prop. by rewrite (Hpq c Hc), (IH Hs).
Qed.

Lemma name_char_not (d : ascii) (c : ascii) :
  NodeUrl.name_char d = false ->
  NodeUrl.name_char c = true -> negb (Ascii.eqb c d) = true.
Proof.
  intros Hd Hc. destruct (Ascii.eqb_spec c d) as [-> |]; [congruence | done].
Qed.

(** A string of name characters parses without protocol and host. *)
Lemma parse_name_no_host (s : string) :
  NodeUrl.all_chars NodeUrl.name_char s = true ->
  host (NodeUrl.parse s) = None.
Proof.
  intros Hs.
  assert (NodeUrl.split_protocol s = (None, s)) as Hsplit.
  { unfold NodeUrl.split_protocol.
    pose proof (span_snd_all NodeUrl.is_proto_char _ s Hs) as Hrest.
    destruct (NodeUrl.span NodeUrl.is_proto_char s) as [[|c a] [|d b]];
      try done.
    simpl in Hrest. apply andb_prop in Hrest as [Hd _].
    by rewrite <- (negb_involutive (Ascii.eqb d ":")),
      (name_char_not ":" d eq_refl Hd). }
  unfold NodeUrl.parse. by rewrite Hsplit.
Qed.

(** Its canonical URL parses with the canonical host, and the pathname is
    the name behind [/styles/]. *)
Lemma parse_canonical_url (s : string) :
  NodeUrl.all_chars NodeUrl.name_char s = true ->
  host (NodeUrl.parse (canonical_url s)) = Some canonical_host
  /\ pathname (NodeUrl.parse (canonical_url s)) = Some ("/styles/" +:+ s).
Proof.
  intros Hs.
  assert (NodeUrl.split_protocol (canonical_url s)
          = (Some "http:", "//www.zotero.org/styles/" +:+ s)) as Hsplit.
  { unfold NodeUrl.split_protocol.
    change (canonical_url s)
      with ("http" +:+ String ":" ("//www.zotero.org/styles/" +:+ s)).
    by rewrite span_stop. }
  assert (forall d, NodeUrl.name_char d = false ->
            NodeUrl.span (fun c => negb (Ascii.eqb c d)) s = (s, "")) as Hpath.
  { intros d Hd. apply span_all.
    eapply all_chars_impl; [| exact Hs]. intros c. apply name_char_not, Hd. }
  unfold NodeUrl.parse. rewrite Hsplit. simpl. split; [done |].
  change ("" +:+ s) with s.
  rewrite substring_all, (Hpath "#"%char eq_refl). simpl.
  by rewrite (Hpath "?"%char eq_refl).
Qed.

(** With this parser, a name made of lower-case letters, digits, [-],
    [_] and [.] comes back from both of its forms. *)
Lemma name_round_trip (s : string) :
  NodeUrl.all_chars NodeUrl.name_char s = true ->
  id_shortName (processStyleIdentifier NodeUrl.parse s) = Some s
  /\ id_shortName (processStyleIdentifier NodeUrl.parse (canonical_url s))
     = Some s.
Proof.
  intros Hs. destruct (parse_canonical_url s Hs) as [Hh Hp]. split.
  - rewrite processStyleIdentifier_short_name; [done |].
    by rewrite (parse_name_no_host s Hs).
  - by rewrite (processStyleIdentifier_canonical _ _ s).
Qed.

(** ** The model on the small installation *)

Example parse_short_name :
  NodeUrl.parse "apa"
  = {| protocol := None; host := None; pathname := Some "apa";
       search := None; hash := None |}.
Proof. reflexivity. Qed.

Example parse_canonical :
  NodeUrl.parse "http://www.zotero.org/styles/apa"
  = {| protocol := Some "http:"; host := Some "www.zotero.org";
       pathname := Some "/styles/apa"; search := None; hash := None |}.
Proof. reflexivity. Qed.

Example parse_query :
  NodeUrl.parse "http://www.zotero.org/styles/foo?bar"
  = {| protocol := Some "http:"; host := Some "www.zotero.org";
       pathname := Some "/styles/foo"; search := Some "?bar";
       hash := None |}.
Proof. reflexivity. Qed.

Example parse_no_path :
  NodeUrl.parse "http://example.org"
  = {| protocol := Some "http:"; host := Some "example.org";
       pathname := Some "/"; search := None; hash := None |}.
Proof. reflexivity. Qed.

Example parse_opaque :
  NodeUrl.parse "urn:isbn"
  = {| protocol := Some "urn:"; host := Some "isbn"; pathname := None;
       search := None; hash := None |}.
Proof. reflexivity. Qed.

(** A URL on another host without pathname gets no [shortName]. *)
Example other_host_no_pathname :
  processStyleIdentifier NodeUrl.parse "urn:isbn"
  = UrlObjV {| parsed := NodeUrl.parse "urn:isbn"; shortName := None |}.
Proof. reflexivity. Qed.

(** A [www.zotero.org] URL outside [/styles/] is refused. *)
Example canonical_host_missing_prefix :
  processStyleIdentifier NodeUrl.parse "http://www.zotero.org/apa"
  = ErrorString
      "Invalid www.zotero.org URL for style: http://www.zotero.org/apa".
Proof. reflexivity. Qed.

Example init_example :
  Js.get (cslShortNames example_fetcher) "apa" = VBool true
  /\ Js.get (cslShortNames example_fetcher) "README.md" = VUndefined
  /\ Js.get (cslShortNames example_fetcher) "constructor" = VFunction
  /\ Js.get (cslDependentShortNames example_fetcher) "apa-variant"
     = VBool true
  /\ Js.get (cslDependentShortNames example_fetcher) "apa" = VUndefined.
Proof. split_and!; reflexivity. Qed.

(** A file named [__proto__.csl] registers nothing. *)
Example init_proto_file :
  scan_dir ["__proto__.csl"] = ∅.
Proof. reflexivity. Qed.

(** Resolving [apa-variant] and then fetching gives the text of
    [apa.csl]. *)
Example resolve_then_fetch :
  let resolved :=
    resolveStyle NodeUrl.parse example_linkElements example_readFile
      example_fetcher (request_for "apa-variant") in
  let fetched :=
    fetchStyle example_readFile (new_fetcher resolved) (new_zcreq resolved) in
  trace resolved = [ReadFile "./csl/dependent/apa-variant.csl"; Callback None]
  /\ id_shortName (styleUrlObj (new_zcreq resolved)) = Some "apa"
  /\ trace fetched = [ReadFile "./csl/apa.csl"; Callback None]
  /\ cslXml (new_zcreq fetched) = Some apa_xml.
Proof. split_and!; vm_compute; reflexivity. Qed.

(** A name in neither registry that is no property of
    [Object.prototype]. *)
Example resolve_unknown :
  trace (resolveStyle NodeUrl.parse example_linkElements example_readFile
           example_fetcher (request_for "no-such-style"))
  = [Callback (Some (ErrStatus 404 "Style not found"))].
Proof. reflexivity. Qed.

(** After the failed resolution of [broken], the entry holds the invalid
    parent: the next resolution is answered from the table, calls back
    with success, and the identifier of the request is the error string. *)
Example resolve_broken_again :
  let first :=
    resolveStyle NodeUrl.parse example_linkElements example_readFile
      example_fetcher (request_for "broken") in
  let second :=
    resolveStyle NodeUrl.parse example_linkElements example_readFile
      (new_fetcher first) (request_for "broken") in
  trace second = [Callback None]
  /\ styleUrlObj (new_zcreq second)
     = ErrorString
         "Invalid www.zotero.org URL for style: http://www.zotero.org/apa".
Proof. split_and!; reflexivity. Qed.

(** A file of a dependent style without [link] element. *)
Example resolve_no_parent_link :
  rewrite_xml apa_xml
  = "<cslstyle xmlns='http://purl.org/net/xbiblio/csl' version='1.0'></cslstyle>"
  /\ readDependent example_linkElements apa_xml = None
  /\ trace (resolveStyle NodeUrl.parse example_linkElements
              (fun _ => FsData apa_xml) example_fetcher (request_for "chained"))
     = [ReadFile "./csl/dependent/chained.csl";
        Callback (Some (ErrMessage "Error resolving dependent style"))].
Proof. split_and!; vm_compute; reflexivity. Qed.

(** A parent link without [href]: the entry is [null], nothing is passed
    to the callback, and the next resolution reads the file again. *)
Example resolve_nohref :
  let first :=
    resolveStyle NodeUrl.parse example_linkElements example_readFile
      example_fetcher (request_for "nohref") in
  let second :=
    resolveStyle NodeUrl.parse example_linkElements example_readFile
      (new_fetcher first) (request_for "nohref") in
  rewrite_xml nohref_xml
  = "<cslstyle xmlns='http://purl.org/net/xbiblio/csl' version='1.0'><info><link rel='independent-parent'/></info></cslstyle>"
  /\ readDependent example_linkElements nohref_xml = Some None
  /\ trace first = [ReadFile "./csl/dependent/nohref.csl"; Throw "TypeError"]
  /\ cslDependentShortNames (new_fetcher first) !! "nohref" = Some VNull
  /\ trace second = [ReadFile "./csl/dependent/nohref.csl"; Throw "TypeError"].
Proof. cbv zeta. split_and!; vm_compute; reflexivity. Qed.

(** A file whose root tag has no attribute: the opening tag is not
    renamed, the parser is handed a [style] element, whose content is
    text, and no parent is found. *)
Example resolve_bare_root :
  let xml :=
    "<style><info><link href='apa' rel='independent-parent'/></info></style>" in
  rewrite_xml xml
  = "<style><info><link href='apa' rel='independent-parent'/></info></cslstyle>"
  /\ readDependent example_linkElements xml = None
  /\ trace (resolveStyle NodeUrl.parse example_linkElements
              (fun _ => FsData xml) example_fetcher (request_for "chained"))
     = [ReadFile "./csl/dependent/chained.csl";
        Callback (Some (ErrMessage "Error resolving dependent style"))].
Proof. cbv zeta. split_and!; vm_compute; reflexivity. Qed.

(** A file [__proto__.csl] whose parent link has no [href]: the
    assignment of [null] under [__proto__] takes [Object.prototype] away
    from the dependent table, and the names of its members are answered
    with 404 from then on. *)
Example resolve_proto_null :
  let first :=
    resolveStyle NodeUrl.parse example_linkElements
      (fun _ => FsData nohref_xml) example_fetcher (request_for "__proto__") in
  trace first = [ReadFile "./csl/dependent/__proto__.csl"; Throw "TypeError"]
  /\ dependentProto (new_fetcher first) = false
  /\ cslDependentShortNames (new_fetcher first)
     = cslDependentShortNames example_fetcher
  /\ trace (resolveStyle NodeUrl.parse example_linkElements example_readFile
              example_fetcher (request_for "constructor"))
     = [ReadFile "./csl/dependent/constructor.csl";
        Callback (Some (ErrFs "ENOENT"))]
  /\ trace (resolveStyle NodeUrl.parse example_linkElements example_readFile
              (new_fetcher first) (request_for "constructor"))
     = [Callback (Some (ErrStatus 404 "Style not found"))].
Proof. cbv zeta. split_and!; vm_compute; reflexivity. Qed.

(** A request on another host. *)
Example fetch_other_host :
  trace (fetchStyle example_readFile example_fetcher
           (request_for "http://example.org/styles/apa"))
  = [Callback (Some (ErrMessage
       "Non-Zotero styles are not supported at this time"))].
Proof. reflexivity. Qed.

(** * Further properties of the code *)

(** ** processStyleIdentifier: errors and missing short names *)

Lemma host_is_Some (h : option string) (name : string) :
  host_is h name = true <-> h = Some name.
Proof.
  destruct h as [s|]; simpl; [| done].
  destruct (String.eqb_spec s name); split; congruence.
Qed.

(** The only error of [processStyleIdentifier]: the host is
    [www.zotero.org] and the pathname is not a string that starts with
    [/styles/]; the message quotes the input. *)
Theorem processStyleIdentifier_error_iff
    (url_parse : string -> ParsedUrl) (style msg : string) :
  processStyleIdentifier url_parse style = ErrorString msg
  <-> (host (url_parse style) = Some canonical_host
       /\ (forall p, pathname (url_parse style) = Some p ->
           substr_to 8 p <> "/styles/")
       /\ msg = "Invalid www.zotero.org URL for style: " +:+ style).
Proof.
  unfold processStyleIdentifier.
  destruct (falsy (host (url_parse style))) eqn:Hf.
  { split; [done |]. intros (Hh & _). by rewrite Hh in Hf. }
  destruct (host_is (host (url_parse style)) canonical_host) eqn:Hi.
  - apply host_is_Some in Hi.
    destruct (pathname (url_parse style)) as [p|] eqn:Hp.
    + destruct (String.eqb_spec (substr_to 8 p) "/styles/") as [He|He]; simpl.
      * split; [done | intros (_ & Hno & _)]. by destruct (Hno p).
      * split.
        -- intros [= <-]. split_and!; [done | | done]. by intros ? [= <-].
        -- by intros (_ & _ & ->).
    + split.
      * intros [= <-]. split_and!; done.
      * by intros (_ & _ & ->).
  - split; [by destruct (pathname (url_parse style)) |].
    intros (Hh%host_is_Some & _). congruence.
Qed.

(** The identifier that comes back has no [shortName] in two cases only:
    it is the error string, or the URL has a host other than
    [www.zotero.org] and no pathname. *)
Theorem processStyleIdentifier_shortName_unset
    (url_parse : string -> ParsedUrl) (style : string) :
  id_shortName (processStyleIdentifier url_parse style) = None
  <-> falsy (host (url_parse style)) = false
      /\ (pathname (url_parse style) = None
          \/ (host (url_parse style) = Some canonical_host
              /\ forall p, pathname (url_parse style) = Some p ->
                           substr_to 8 p <> "/styles/")).
Proof.
  unfold processStyleIdentifier.
  destruct (falsy (host (url_parse style))) eqn:Hf.
  { split; [done | by intros [? _]]. }
  destruct (host_is (host (url_parse style)) canonical_host) eqn:Hi.
  - apply host_is_Some in Hi.
    destruct (pathname (url_parse style)) as [p|] eqn:Hp.
    + destruct (String.eqb_spec (substr_to 8 p) "/styles/") as [He|He]; simpl.
      * split; [done |]. intros (_ & [[=] | (_ & Hno)]). by destruct (Hno p).
      * split; [| done]. intros _. split; [done |]. right.
        split; [done |]. by intros ? [= <-].
    + simpl. split; [| done]. intros _. split; [done | by left].
  - destruct (pathname (url_parse style)) as [p|] eqn:Hp; simpl.
    + split; [done |]. intros (_ & [[=] | (Hh%host_is_Some & _)]). congruence.
    + split; [| done]. intros _. split; [done | by left].
Qed.

(** A short name and its canonical URL normalize to the same identifier,
    field by field, whenever the URL parses back to its parts. *)
Theorem short_and_canonical_forms_agree
    (url_parse : string -> ParsedUrl) (s : string) :
  falsy (host (url_parse s)) = true ->
  host (url_parse (canonical_url s)) = Some canonical_host ->
  pathname (url_parse (canonical_url s)) = Some ("/styles/" +:+ s) ->
  processStyleIdentifier url_parse s
  = processStyleIdentifier url_parse (canonical_url s).
Proof.
  intros Hs Hh Hp.
  rewrite (processStyleIdentifier_short_name _ _ Hs).
  by rewrite (processStyleIdentifier_canonical _ _ s Hh Hp).
Qed.

Lemma short_and_canonical_forms_agree_witness :
  processStyleIdentifier NodeUrl.parse "apa-variant"
  = processStyleIdentifier NodeUrl.parse
      "http://www.zotero.org/styles/apa-variant".
Proof.
  exact (short_and_canonical_forms_agree NodeUrl.parse "apa-variant"
           eq_refl eq_refl eq_refl).
Defined.

(** ** init: what a listing registers *)

Lemma length_app_string (a b : string) :
  String.length (a +:+ b) = String.length a + String.length b.
Proof.
  induction a as [|c a IH]; [done |].
  change (String c a +:+ b) with (String c (a +:+ b)). simpl. by rewrite IH.
Qed.

Lemma substring_app_r (a b : string) :
  substring (String.length a) (String.length b) (a +:+ b) = b.
Proof.
  induction a as [|c a IH]; simpl; [apply substring_all | exact IH].
Qed.

Lemma substr_last_app (a b : string) :
  substr_last (String.length b) (a +:+ b) = b.
Proof.
  unfold substr_last. rewrite length_app_string.
  replace (String.length a + String.length b - String.length b)
    with (String.length a) by lia.
  apply substring_app_r.
Qed.

Lemma slice_but_last_app (a b : string) :
  slice_but_last (String.length b) (a +:+ b) = a.
Proof.
  unfold slice_but_last. rewrite length_app_string.
  replace (String.length a + String.length b - String.length b)
    with (String.length a) by lia.
  apply substr_to_app.
Qed.

(** A listing registers [k] exactly when it holds the file [k.csl]. *)
Lemma registered_iff (dir : list string) (k : string) :
  registered dir k <-> (k +:+ csl_suffix) ∈ dir.
Proof.
  split.
  - intros (filename & Hin & Hs & <-). by rewrite <- (csl_filename _ Hs).
  - intros Hin. exists (k +:+ csl_suffix). split_and!; [done | |].
    + apply (substr_last_app k csl_suffix).
    + apply (slice_but_last_app k csl_suffix).
Qed.

Lemma scan_dir_lookup_file (dir : list string) (k : string) :
  scan_dir dir !! k
  = if decide (k <> "__proto__" /\ (k +:+ csl_suffix) ∈ dir)
    then Some (VBool true) else None.
Proof.
  case_decide as Hd.
  - apply scan_dir_lookup. split_and!; [done | by destruct Hd |].
    apply registered_iff. by destruct Hd.
  - destruct (scan_dir dir !! k) as [v|] eqn:Hk; [| done].
    apply scan_dir_lookup in Hk as (_ & Hk & Hr%registered_iff).
    by destruct Hd.
Qed.

(** After [init], the independent styles are the names [k] with a file
    [k.csl] in the first listing and the dependent ones those with a file
    [k.csl] in the second, all with the value [true]; other files, and a
    file called [__proto__.csl], register nothing. *)
Theorem init_registers (path : string) (dir depDir : list string) (k : string) :
  cslPath (init path dir depDir) = path
  /\ cslShortNames (init path dir depDir) !! k
     = (if decide (k <> "__proto__" /\ (k +:+ ".csl") ∈ dir)
        then Some (VBool true) else None)
  /\ cslDependentShortNames (init path dir depDir) !! k
     = (if decide (k <> "__proto__" /\ (k +:+ ".csl") ∈ depDir)
        then Some (VBool true) else None).
Proof. split_and!; [done | apply scan_dir_lookup_file ..]. Qed.

(** The registries depend on which files are listed, not on their order
    or on repetitions. *)
Theorem init_listing_order (path : string) (dir dir' depDir depDir' : list string) :
  (forall filename, filename ∈ dir <-> filename ∈ dir') ->
  (forall filename, filename ∈ depDir <-> filename ∈ depDir') ->
  init path dir depDir = init path dir' depDir'.
Proof.
  intros Hdir Hdep. unfold init. f_equal; apply map_eq; intros k;
    rewrite !scan_dir_lookup_file; apply decide_ext.
  - by rewrite Hdir.
  - by rewrite Hdep.
Qed.

Lemma init_listing_order_witness :
  init "./csl" ["b.csl"; "a.csl"; "b.csl"] ["d.csl"; "c.csl"]
  = init "./csl" ["a.csl"; "b.csl"] ["c.csl"; "d.csl"; "c.csl"].
Proof.
  apply init_listing_order; intros filename;
    rewrite !list_elem_of_In; simpl; tauto.
Defined.

(** A style with a file in the independent directory resolves at once,
    whatever the dependent directory holds: where both directories have
    [k.csl], [k] is treated as independent. *)
Theorem init_independent_resolves
    (url_parse : string -> ParsedUrl) (linkElements : string -> list LinkEl)
    (readFile : string -> FileResult)
    (path : string) (dir depDir : list string) (zcreq : ZcReq) :
  (request_key zcreq +:+ ".csl") ∈ dir ->
  request_key zcreq <> "__proto__" ->
  resolveStyle url_parse linkElements readFile (init path dir depDir) zcreq
  = {| new_fetcher := init path dir depDir; new_zcreq := zcreq;
       trace := [Callback None] |}.
Proof.
  intros Hin Hk.
  assert (independent (init path dir depDir) (request_key zcreq) = true) as Hi.
  { apply independent_own. simpl. rewrite scan_dir_lookup_file.
    by rewrite decide_True. }
  unfold request_key in Hi. unfold resolveStyle, resolveStyle_call.
  by rewrite Hi.
Qed.

Lemma init_independent_resolves_witness :
  resolveStyle NodeUrl.parse example_linkElements example_readFile
    (init "./csl" ["apa.csl"] ["apa.csl"; "apa-variant.csl"])
    (request_for "apa")
  = {| new_fetcher := init "./csl" ["apa.csl"] ["apa.csl"; "apa-variant.csl"];
       new_zcreq := request_for "apa";
       trace := [Callback None] |}.
Proof.
  apply init_independent_resolves.
  - apply list_elem_of_In. simpl. by left.
  - discriminate.
Defined.

(** A style with no file in either directory, and whose name is not a
    member of [Object.prototype], is answered with the status 404,
    without a read and without a change. *)
Theorem init_unknown_404
    (url_parse : string -> ParsedUrl) (linkElements : string -> list LinkEl)
    (readFile : string -> FileResult)
    (path : string) (dir depDir : list string) (zcreq : ZcReq) :
  (request_key zcreq +:+ ".csl") ∉ dir ->
  (request_key zcreq +:+ ".csl") ∉ depDir ->
  inherited (request_key zcreq) = VUndefined ->
  resolveStyle url_parse linkElements readFile (init path dir depDir) zcreq
  = {| new_fetcher := init path dir depDir; new_zcreq := zcreq;
       trace := [Callback (Some (ErrStatus 404 "Style not found"))] |}.
Proof.
  intros Hdir Hdep Hproto.
  assert (forall l, (request_key zcreq +:+ ".csl") ∉ l ->
            Js.get (scan_dir l) (request_key zcreq) = VUndefined) as Hget.
  { intros l Hl. unfold Js.get. rewrite scan_dir_lookup_file.
    rewrite decide_False; [done | by intros [_ ?]]. }
  unfold request_key in *.
  unfold resolveStyle, resolveStyle_call, independent, dependent,
    dependent_get. simpl.
  by rewrite (Hget dir Hdir), (Hget depDir Hdep).
Qed.

Lemma init_unknown_404_witness :
  trace (resolveStyle NodeUrl.parse example_linkElements example_readFile
           (init "./csl" ["apa.csl"; "README.md"] ["apa-variant.csl"])
           (request_for "README.md"))
  = [Callback (Some (ErrStatus 404 "Style not found"))].
Proof.
  rewrite (init_unknown_404 NodeUrl.parse example_linkElements
             example_readFile "./csl" ["apa.csl"; "README.md"]
             ["apa-variant.csl"] (request_for "README.md")).
  - reflexivity.
  - intros Hin. apply list_elem_of_In in Hin. simpl in Hin.
    destruct Hin as [H | [H | []]]; discriminate H.
  - intros Hin. apply list_elem_of_In in Hin. simpl in Hin.
    destruct Hin as [H | []]; discriminate H.
  - reflexivity.
Defined.

(** ** resolveStyle: completion, frame and failures *)


(** Whatever the request and the registries, a call of [resolveStyle]
    calls back exactly once before it returns, without a read, or it
    starts one read, of the file of the requested name in the dependent
    directory, and returns without calling back.  The continuation of
    that read, whatever the result of the read and whatever the state of
    the fetcher by then, starts no read and calls back at most once.
    With a parser that returns for every string, it fails to call back in
    one case only: the read gave data whose parent link has no [href]. *)
Theorem resolveStyle_calls_back_once
    (url_parse : string -> ParsedUrl) (linkElements : string -> list LinkEl)
    (this : Fetcher) (zcreq : ZcReq) :
  match resolveStyle_call url_parse this zcreq with
  | Returned out =>
      List.length (callbacks (trace out)) = 1 /\ reads (trace out) = []
  | Reading filename k =>
      filename = dependent_file this (request_key zcreq)
      /\ k = request_key zcreq
  end
  /\ forall (k : string) (result : FileResult) (this' : Fetcher),
       let out :=
         resolveStyle_onRead url_parse linkElements k result this' zcreq in
       reads (trace out) = []
       /\ List.length (callbacks (trace out)) <= 1
       /\ (callbacks (trace out) = [] <->
           exists data,
             result = FsData data
             /\ readDependent linkElements data = Some None).
Proof.
  split.
  - unfold resolveStyle_call, request_key, dependent_file.
    repeat (case_match; simpl in *; simplify_eq; try done).
  - intros k result this'. cbv zeta. unfold resolveStyle_onRead.
    destruct result as [err | data]; simpl.
    + split_and!; [done | lia |]. split; [done | by intros (? & [=] & _)].
    + destruct (readDependent linkElements data) as [[p |] |] eqn:Hp; simpl.
      * destruct (processStyleIdentifier url_parse p); simpl;
          (split_and!; [done | lia |]);
          (split; [done | intros (? & [= <-] & ?); congruence]).
      * split_and!; [done | lia |]. split; [eauto | done].
      * split_and!; [done | lia |].
        split; [done | intros (? & [= <-] & ?); congruence].
Qed.


(** A name that is not independent, that the dependent table answers for,
    and whose entry is not a string, sends [resolveStyle] to the file of
    the style.  When the read fails, the error of the read is handed to the
    callback as it is; when the file has no [link] element with
    [rel="independent-parent"], the failure is the fixed message.  In both
    cases nothing is recorded: the fetcher and the request are unchanged,
    and the same call made again reads the file again. *)
Theorem resolveStyle_failed_read
    (url_parse : string -> ParsedUrl) (linkElements : string -> list LinkEl)
    (readFile : string -> FileResult) (this : Fetcher) (zcreq : ZcReq) :
  independent this (request_key zcreq) = false ->
  dependent this (request_key zcreq) = true ->
  (forall p, dependent_get this (request_key zcreq) <> VString p) ->
  (forall data, readFile (dependent_file this (request_key zcreq))
                = FsData data -> readDependent linkElements data = None) ->
  let out := resolveStyle url_parse linkElements readFile this zcreq in
  new_fetcher out = this
  /\ new_zcreq out = zcreq
  /\ trace out
     = [ReadFile (dependent_file this (request_key zcreq));
        Callback (Some
          match readFile (dependent_file this (request_key zcreq)) with
          | FsErr err => ErrFs err
          | FsData _ => ErrMessage "Error resolving dependent style"
          end)]
  /\ resolveStyle url_parse linkElements readFile (new_fetcher out)
       (new_zcreq out) = out.
Proof.
  unfold request_key, dependent_file. intros Hind Hdep Hnot Hfile.
  assert (resolveStyle url_parse linkElements readFile this zcreq
          = {| new_fetcher := this; new_zcreq := zcreq;
               trace :=
                 [ReadFile (cslPath this +:+ "/dependent/"
                            +:+ Js.key (id_shortName (styleUrlObj zcreq))
                            +:+ ".csl");
                  Callback (Some
                    match readFile (cslPath this +:+ "/dependent/"
                            +:+ Js.key (id_shortName (styleUrlObj zcreq))
                            +:+ ".csl") with
                    | FsErr err => ErrFs err
                    | FsData _ => ErrMessage "Error resolving dependent style"
                    end)] |}) as Hout.
  { unfold resolveStyle, resolveStyle_call. rewrite Hind, Hdep.
    destruct (dependent_get this
                (Js.key (id_shortName (styleUrlObj zcreq))))
      as [| | p | | |] eqn:Hv;
      try (by destruct (Hnot p));
      unfold resolveStyle_onRead;
      (destruct (readFile _) as [err | data] eqn:Hrd; [done |];
       by rewrite (Hfile data eq_refl)). }
  cbv zeta. rewrite Hout. simpl. split_and!; try done.
Qed.

Lemma resolveStyle_failed_read_witness :
  trace (resolveStyle NodeUrl.parse example_linkElements
           (fun _ => FsErr "EACCES") example_fetcher (request_for "chained"))
  = [ReadFile "./csl/dependent/chained.csl";
     Callback (Some (ErrFs "EACCES"))]
  /\ new_fetcher (resolveStyle NodeUrl.parse example_linkElements
                    (fun _ => FsErr "EACCES") example_fetcher
                    (request_for "chained"))
     = example_fetcher.
Proof.
  destruct (resolveStyle_failed_read NodeUrl.parse example_linkElements
              (fun _ => FsErr "EACCES") example_fetcher
              (request_for "chained") eq_refl eq_refl)
    as (Hf & _ & Ht & _).
  - intros p. vm_compute. discriminate.
  - intros data. discriminate.
  - split; [exact Ht | exact Hf].
Defined.

(** The continuation of a read assigns the entry of its name without
    looking at it.  When the read gave data in which [readDependent]
    finds a parent, the entry holds that parent afterwards, the string or
    [null], whatever it held before, be it the parent that an earlier
    call memoized.  Nothing else in the fetcher changes.  (The key
    [__proto__] of a table that has [Object.prototype] is no entry: it is
    left aside.) *)
Theorem resolveStyle_onRead_assigns
    (url_parse : string -> ParsedUrl) (linkElements : string -> list LinkEl)
    (k data : string) (parentStyle : option string)
    (this : Fetcher) (zcreq : ZcReq) :
  readDependent linkElements data = Some parentStyle ->
  ~ (dependentProto this = true /\ k = "__proto__") ->
  let out :=
    resolveStyle_onRead url_parse linkElements k (FsData data) this zcreq in
  cslDependentShortNames (new_fetcher out) !! k
  = Some match parentStyle with
         | Some s => VString s
         | None => VNull
         end
  /\ (forall k', k' <> k ->
      cslDependentShortNames (new_fetcher out) !! k'
      = cslDependentShortNames this !! k')
  /\ cslPath (new_fetcher out) = cslPath this
  /\ cslShortNames (new_fetcher out) = cslShortNames this
  /\ dependentProto (new_fetcher out) = dependentProto this.
Proof.
  intros Hparent Hk. cbv zeta.
  assert (new_fetcher (resolveStyle_onRead url_parse linkElements k
                         (FsData data) this zcreq)
          = with_dependent this
              (<[k := match parentStyle with
                      | Some s => VString s
                      | None => VNull
                      end]> (cslDependentShortNames this))) as ->.
  { unfold resolveStyle_onRead, dependent_set. rewrite Hparent.
    destruct (dependentProto this) eqn:Hflag,
      (String.eqb_spec k "__proto__") as [Heq | Hne]; simpl;
      try (exfalso; apply Hk; by split);
      destruct parentStyle as [p |]; simpl; try done;
      by destruct (processStyleIdentifier url_parse p). }
  simpl. split_and!; try done.
  - apply lookup_insert_eq.
  - intros k' Hk'. by apply lookup_insert_ne.
Qed.

Lemma resolveStyle_onRead_assigns_witness :
  let this1 :=
    new_fetcher (resolveStyle NodeUrl.parse example_linkElements
                   example_readFile example_fetcher
                   (request_for "apa-variant")) in
  cslDependentShortNames this1 !! "apa-variant"
  = Some (VString "http://www.zotero.org/styles/apa")
  /\ cslDependentShortNames
       (new_fetcher
          (resolveStyle_onRead NodeUrl.parse example_linkElements
             "apa-variant" (FsData apa_variant_edited_xml) this1
             (request_for "apa-variant")))
     !! "apa-variant"
     = Some (VString "http://www.zotero.org/styles/mla").
Proof.
  cbv zeta. split; [vm_compute; reflexivity |].
  destruct (resolveStyle_onRead_assigns NodeUrl.parse example_linkElements
              "apa-variant" apa_variant_edited_xml
              (Some "http://www.zotero.org/styles/mla")
              (new_fetcher (resolveStyle NodeUrl.parse example_linkElements
                              example_readFile example_fetcher
                              (request_for "apa-variant")))
              (request_for "apa-variant"))
    as (Hentry & _).
  - vm_compute. reflexivity.
  - intros [_ Hk]. discriminate Hk.
  - exact Hentry.
Defined.

(** ** fetchStyle: frame and the three sources *)

Local Ltac fetch_all :=
  unfold fetchStyle, request_key, independent_file;
  repeat (case_match; simpl in *; simplify_eq; try done).

(** What [fetchStyle] leaves alone: the fetcher, and the identifier and
    the posted style of the request.  It reads at most one file, the one
    of the requested name in the independent directory, and it reads none
    when a style is posted.  The stylesheet text of the request changes
    only when the step succeeds. *)
Theorem fetchStyle_frame
    (readFile : string -> FileResult) (this : Fetcher) (zcreq : ZcReq) :
  let out := fetchStyle readFile this zcreq in
  new_fetcher out = this
  /\ styleUrlObj (new_zcreq out) = styleUrlObj zcreq
  /\ postedStyle (new_zcreq out) = postedStyle zcreq
  /\ postObj (new_zcreq out) = postObj zcreq
  /\ (reads (trace out) = []
      \/ (postedStyle zcreq = false
          /\ reads (trace out) = [independent_file this (request_key zcreq)]))
  /\ (callbacks (trace out) <> [None] -> new_zcreq out = zcreq).
Proof. cbv zeta. split_and!; fetch_all; auto. Qed.

(** For a request without posted style whose identifier has the host
    [www.zotero.org] and names an independent style, [fetchStyle] reads
    the file of the style.  The text that was read becomes the stylesheet
    text of the request, as it is; a failed read is reported by a message
    that names the file and quotes the error, and the request is left as
    it was. *)
Theorem fetchStyle_independent
    (readFile : string -> FileResult) (this : Fetcher) (zcreq : ZcReq) :
  postedStyle zcreq = false ->
  id_host (styleUrlObj zcreq) = Some canonical_host ->
  independent this (request_key zcreq) = true ->
  fetchStyle readFile this zcreq
  = match readFile (independent_file this (request_key zcreq)) with
    | FsData data =>
        {| new_fetcher := this; new_zcreq := with_cslXml zcreq (Some data);
           trace := [ReadFile (independent_file this (request_key zcreq));
                     Callback None] |}
    | FsErr err =>
        {| new_fetcher := this; new_zcreq := zcreq;
           trace := [ReadFile (independent_file this (request_key zcreq));
                     Callback (Some (ErrMessage
                       ("Error loading style from file "
                        +:+ independent_file this (request_key zcreq)
                        +:+ ": " +:+ err)))] |}
    end.
Proof.
  unfold request_key, independent_file. intros Hposted Hhost Hind.
  unfold fetchStyle. rewrite Hposted, Hhost, Hind. simpl.
  by destruct (readFile _).
Qed.

Lemma fetchStyle_independent_witness :
  fetchStyle example_readFile example_fetcher (request_for "apa")
  = {| new_fetcher := example_fetcher;
       new_zcreq := with_cslXml (request_for "apa") (Some apa_xml);
       trace := [ReadFile "./csl/apa.csl"; Callback None] |}.
Proof.
  exact (fetchStyle_independent example_readFile example_fetcher
           (request_for "apa") eq_refl eq_refl eq_refl).
Defined.

(** For a request without posted style whose identifier does not have the
    host [www.zotero.org], be it a URL on another host or the error string
    of a failed normalization, [fetchStyle] reads nothing, changes nothing
    and fails with the message that such styles are not supported. *)
Theorem fetchStyle_other_host
    (readFile : string -> FileResult) (this : Fetcher) (zcreq : ZcReq) :
  postedStyle zcreq = false ->
  id_host (styleUrlObj zcreq) <> Some canonical_host ->
  fetchStyle readFile this zcreq
  = {| new_fetcher := this; new_zcreq := zcreq;
       trace := [Callback (Some (ErrMessage
                   "Non-Zotero styles are not supported at this time"))] |}.
Proof.
  intros Hposted Hhost. unfold fetchStyle. rewrite Hposted.
  destruct (host_is (id_host (styleUrlObj zcreq)) canonical_host) eqn:Hi;
    [| done].
  by apply host_is_Some in Hi.
Qed.

Lemma fetchStyle_other_host_witness :
  fetchStyle example_readFile example_fetcher
    (request_for "http://www.zotero.org/apa")
  = {| new_fetcher := example_fetcher;
       new_zcreq := request_for "http://www.zotero.org/apa";
       trace := [Callback (Some (ErrMessage
                   "Non-Zotero styles are not supported at this time"))] |}.
Proof.
  apply fetchStyle_other_host; [reflexivity | discriminate].
Defined.

(** ** Resolution followed by the fetch *)

(** The parent of a dependent style, as [resolveStyle] obtains it: from
    the table, or from the file of the style. *)
Lemma resolveStyle_to_parent
    (url_parse : string -> ParsedUrl) (linkElements : string -> list LinkEl)
    (readFile : string -> FileResult) (this : Fetcher) (zcreq : ZcReq)
    (parentStyle : string) :
  independent this (request_key zcreq) = false ->
  dependent this (request_key zcreq) = true ->
  (dependent_get this (request_key zcreq) = VString parentStyle
   \/ ((forall p, dependent_get this (request_key zcreq) <> VString p)
       /\ exists data,
            readFile (dependent_file this (request_key zcreq)) = FsData data
            /\ readDependent linkElements data = Some (Some parentStyle))) ->
  let out := resolveStyle url_parse linkElements readFile this zcreq in
  match processStyleIdentifier url_parse parentStyle with
  | UrlObjV u =>
      callbacks (trace out) = [None]
      /\ new_zcreq out = with_styleUrlObj zcreq (UrlObjV u)
  | ErrorString msg =>
      (dependent_get this (request_key zcreq) = VString parentStyle ->
       callbacks (trace out) = [None]
       /\ new_zcreq out = with_styleUrlObj zcreq (ErrorString msg))
      /\ ((forall p, dependent_get this (request_key zcreq) <> VString p) ->
          callbacks (trace out) = [Some (ErrMessage msg)]
          /\ new_zcreq out = zcreq
          /\ new_fetcher out
             = dependent_set this (request_key zcreq) (VString parentStyle))
  end.
Proof.
  unfold request_key, dependent_file. intros Hind Hdep Hparent.
  cbv zeta. unfold resolveStyle, resolveStyle_call. rewrite Hind, Hdep.
  destruct Hparent as [Hget | (Hnot & data & Hfile & Hrd)].
  - rewrite Hget.
    destruct (processStyleIdentifier url_parse parentStyle) as [u | msg];
      [done |].
    split; [done |]. intros Hno. by destruct (Hno parentStyle).
  - destruct (dependent_get this
                (Js.key (id_shortName (styleUrlObj zcreq))))
      as [| | p | | |] eqn:Hv;
      try (by destruct (Hnot p));
      unfold resolveStyle_onRead; rewrite Hfile, Hrd;
      (destruct (processStyleIdentifier url_parse parentStyle) as [u | msg];
       [done | split; [done | done]]).
Qed.

(** Resolution and fetch in sequence, for a request without posted style
    and a dependent style whose parent is an independent style on
    [www.zotero.org] with a readable file: both steps succeed, the fetch
    reads the file of the parent, and the request ends with the text of
    that file. *)
Theorem resolve_then_fetch_parent
    (url_parse : string -> ParsedUrl) (linkElements : string -> list LinkEl)
    (readFile : string -> FileResult) (this : Fetcher) (zcreq : ZcReq)
    (parentStyle : string) (u : UrlObj) (css : string) :
  postedStyle zcreq = false ->
  independent this (request_key zcreq) = false ->
  dependent this (request_key zcreq) = true ->
  (dependent_get this (request_key zcreq) = VString parentStyle
   \/ ((forall p, dependent_get this (request_key zcreq) <> VString p)
       /\ exists data,
            readFile (dependent_file this (request_key zcreq)) = FsData data
            /\ readDependent linkElements data = Some (Some parentStyle))) ->
  processStyleIdentifier url_parse parentStyle = UrlObjV u ->
  host (parsed u) = Some canonical_host ->
  independent this (Js.key (shortName u)) = true ->
  readFile (independent_file this (Js.key (shortName u))) = FsData css ->
  let resolved := resolveStyle url_parse linkElements readFile this zcreq in
  let fetched :=
    fetchStyle readFile (new_fetcher resolved) (new_zcreq resolved) in
  callbacks (trace resolved) = [None]
  /\ styleUrlObj (new_zcreq resolved) = UrlObjV u
  /\ trace fetched
     = [ReadFile (independent_file this (Js.key (shortName u)));
        Callback None]
  /\ cslXml (new_zcreq fetched) = Some css
  /\ styleUrlObj (new_zcreq fetched) = UrlObjV u.
Proof.
  intros Hposted Hind Hdep Hparent Hid Hhost Hpind Hfile. cbv zeta.
  pose proof (resolveStyle_to_parent url_parse linkElements readFile this
                zcreq parentStyle Hind Hdep Hparent) as Hres.
  cbv zeta in Hres. rewrite Hid in Hres. destruct Hres as [Hcb Hreq].
  pose proof (resolveStyle_cslShortNames url_parse linkElements readFile
                this zcreq) as Hnames.
  pose proof (resolveStyle_cslPath url_parse linkElements readFile
                this zcreq) as Hpath.
  split; [exact Hcb |].
  rewrite Hreq. split; [done |].
  apply (independent_ext this) with (k := Js.key (shortName u)) in Hnames.
  rewrite Hpind in Hnames.
  generalize dependent (new_fetcher
    (resolveStyle url_parse linkElements readFile this zcreq)).
  intros f' Hpath Hnames.
  unfold fetchStyle, independent_file in *. cbn.
  rewrite Hposted, Hhost, Hnames, Hpath. cbn. by rewrite Hfile.
Qed.

Lemma resolve_then_fetch_parent_witness :
  example_readFile "./csl/dependent/apa-variant.csl" = FsData apa_variant_xml
  /\ rewrite_xml apa_variant_xml
     = "<cslstyle xmlns='http://purl.org/net/xbiblio/csl' version='1.0'><info><link href='http://www.zotero.org/styles/apa-variant' rel='self'/><link href='http://www.zotero.org/styles/apa' rel='independent-parent'/></info></cslstyle>"
  /\ trace (fetchStyle example_readFile
              (new_fetcher (resolveStyle NodeUrl.parse example_linkElements
                              example_readFile example_fetcher
                              (request_for "apa-variant")))
              (new_zcreq (resolveStyle NodeUrl.parse example_linkElements
                            example_readFile example_fetcher
                            (request_for "apa-variant"))))
     = [ReadFile "./csl/apa.csl"; Callback None]
  /\ cslXml
       (new_zcreq
          (fetchStyle example_readFile
             (new_fetcher (resolveStyle NodeUrl.parse example_linkElements
                             example_readFile example_fetcher
                             (request_for "apa-variant")))
             (new_zcreq (resolveStyle NodeUrl.parse example_linkElements
                           example_readFile example_fetcher
                           (request_for "apa-variant")))))
     = Some apa_xml.
Proof.
  destruct (resolve_then_fetch_parent NodeUrl.parse example_linkElements
              example_readFile example_fetcher (request_for "apa-variant")
              "http://www.zotero.org/styles/apa"
              {| parsed := NodeUrl.parse "http://www.zotero.org/styles/apa";
                 shortName := Some "apa" |}
              apa_xml eq_refl eq_refl eq_refl)
    as (_ & _ & Htrace & Hxml & _).
  - right. split; [intros p; vm_compute; discriminate |].
    exists apa_variant_xml. split; vm_compute; reflexivity.
  - vm_compute. reflexivity.
  - reflexivity.
  - reflexivity.
  - reflexivity.
  - split_and!; [vm_compute; reflexivity | vm_compute; reflexivity
                 | exact Htrace | exact Hxml].
Defined.

(** Resolution and fetch in sequence, for a request without posted style
    and a dependent style whose parent on [www.zotero.org] is not an
    independent style (a second dependent style, or a name without file):
    the resolution succeeds, and the fetch that follows returns without
    reading a file and without calling its callback. *)
Theorem resolve_then_fetch_chain
    (url_parse : string -> ParsedUrl) (linkElements : string -> list LinkEl)
    (readFile : string -> FileResult) (this : Fetcher) (zcreq : ZcReq)
    (parentStyle : string) (u : UrlObj) :
  postedStyle zcreq = false ->
  independent this (request_key zcreq) = false ->
  dependent this (request_key zcreq) = true ->
  (dependent_get this (request_key zcreq) = VString parentStyle
   \/ ((forall p, dependent_get this (request_key zcreq) <> VString p)
       /\ exists data,
            readFile (dependent_file this (request_key zcreq)) = FsData data
            /\ readDependent linkElements data = Some (Some parentStyle))) ->
  processStyleIdentifier url_parse parentStyle = UrlObjV u ->
  host (parsed u) = Some canonical_host ->
  independent this (Js.key (shortName u)) = false ->
  let resolved := resolveStyle url_parse linkElements readFile this zcreq in
  let fetched :=
    fetchStyle readFile (new_fetcher resolved) (new_zcreq resolved) in
  callbacks (trace resolved) = [None]
  /\ styleUrlObj (new_zcreq resolved) = UrlObjV u
  /\ trace fetched = []
  /\ new_fetcher fetched = new_fetcher resolved
  /\ styleUrlObj (new_zcreq fetched) = UrlObjV u
  /\ cslXml (new_zcreq fetched) = cslXml zcreq.
Proof.
  intros Hposted Hind Hdep Hparent Hid Hhost Hpind. cbv zeta.
  pose proof (resolveStyle_to_parent url_parse linkElements readFile this
                zcreq parentStyle Hind Hdep Hparent) as Hres.
  cbv zeta in Hres. rewrite Hid in Hres. destruct Hres as [Hcb Hreq].
  pose proof (resolveStyle_cslShortNames url_parse linkElements readFile
                this zcreq) as Hnames.
  split; [exact Hcb |].
  rewrite Hreq. split; [done |].
  apply (independent_ext this) with (k := Js.key (shortName u)) in Hnames.
  rewrite Hpind in Hnames.
  generalize dependent (new_fetcher
    (resolveStyle url_parse linkElements readFile this zcreq)).
  intros f' Hnames.
  unfold fetchStyle. cbn. rewrite Hposted, Hhost, Hnames. cbn.
  by repeat case_match.
Qed.

Lemma resolve_then_fetch_chain_witness :
  example_readFile "./csl/dependent/chained.csl" = FsData chained_xml
  /\ readDependent example_linkElements chained_xml = Some (Some "apa-variant")
  /\ callbacks (trace (resolveStyle NodeUrl.parse example_linkElements
                         example_readFile example_fetcher
                         (request_for "chained")))
     = [None]
  /\ trace (fetchStyle example_readFile
              (new_fetcher (resolveStyle NodeUrl.parse example_linkElements
                              example_readFile example_fetcher
                              (request_for "chained")))
              (new_zcreq (resolveStyle NodeUrl.parse example_linkElements
                            example_readFile example_fetcher
                            (request_for "chained"))))
     = [].
Proof.
  destruct (resolve_then_fetch_chain NodeUrl.parse example_linkElements
              example_readFile example_fetcher (request_for "chained")
              "apa-variant"
              {| parsed := NodeUrl.parse (canonical_url "apa-variant");
                 shortName := Some "apa-variant" |}
              eq_refl eq_refl eq_refl)
    as (Hcb & _ & Htrace & _).
  - right. split; [intros p; vm_compute; discriminate |].
    exists chained_xml. split; vm_compute; reflexivity.
  - vm_compute. reflexivity.
  - reflexivity.
  - reflexivity.
  - split_and!; [vm_compute; reflexivity | vm_compute; reflexivity
                 | exact Hcb | exact Htrace].
Defined.

(** A parent that fails normalization stays in the table.  Let the
    resolution of a name other than [__proto__] read the file of the
    style and find a parent string that fails normalization, and let
    every later read of that file that gives data give the same parent.
    Then, whatever reads complete in between, every later resolution of
    the same name is answered from the table: it reads nothing, changes
    nothing in the fetcher, reports success, and leaves the error string
    of the normalization as the identifier of the request; for a request
    without posted style, the fetch that follows then fails as for a
    style on another host. *)
Theorem resolve_again_after_invalid_parent
    (url_parse : string -> ParsedUrl) (linkElements : string -> list LinkEl)
    (allowed : string -> FileResult -> Prop)
    (readFile : string -> FileResult) (this : Fetcher) (zcreq : ZcReq)
    (data parentStyle msg : string)
    (this2 : Fetcher) (readFile2 : string -> FileResult) (zcreq2 : ZcReq) :
  request_key zcreq <> "__proto__" ->
  independent this (request_key zcreq) = false ->
  dependent this (request_key zcreq) = true ->
  (forall p, dependent_get this (request_key zcreq) <> VString p) ->
  readFile (dependent_file this (request_key zcreq)) = FsData data ->
  readDependent linkElements data = Some (Some parentStyle) ->
  processStyleIdentifier url_parse parentStyle = ErrorString msg ->
  (forall data',
     allowed (dependent_file this (request_key zcreq)) (FsData data') ->
     readDependent linkElements data' = Some (Some parentStyle)) ->
  rtc (step_in url_parse linkElements allowed)
    (new_fetcher (resolveStyle url_parse linkElements readFile this zcreq))
    this2 ->
  request_key zcreq2 = request_key zcreq ->
  postedStyle zcreq2 = false ->
  let first := resolveStyle url_parse linkElements readFile this zcreq in
  let second := resolveStyle url_parse linkElements readFile2 this2 zcreq2 in
  callbacks (trace first) = [Some (ErrMessage msg)]
  /\ trace second = [Callback None]
  /\ new_fetcher second = this2
  /\ styleUrlObj (new_zcreq second) = ErrorString msg
  /\ trace (fetchStyle readFile2 (new_fetcher second) (new_zcreq second))
     = [Callback (Some (ErrMessage
          "Non-Zotero styles are not supported at this time"))].
Proof.
  intros Hk Hind Hdep Hnot Hfile Hrd Hid Hstorage Hsteps Hkey Hposted.
  cbv zeta.
  pose proof (resolveStyle_to_parent url_parse linkElements readFile this
                zcreq parentStyle Hind Hdep) as Hres.
  cbv zeta in Hres. rewrite Hid in Hres.
  destruct Hres as [_ Hres]; [right; eauto |].
  destruct (Hres Hnot) as (Hcb & _ & Htable).
  split; [exact Hcb |].
  rewrite Htable in Hsteps.
  assert (cslDependentShortNames this2 !! request_key zcreq2
          = Some (VString parentStyle)) as Hentry.
  { rewrite Hkey.
    eapply steps_in_resolved_stable; [| exact Hsteps |].
    - unfold dependent_file in *. by rewrite dependent_set_cslPath.
    - rewrite dependent_set_lookup. rewrite decide_True; [done |].
      split; [done |]. by intros [_ ?]. }
  assert (independent this2 (request_key zcreq2) = false) as Hind2.
  { rewrite Hkey, (independent_ext this); [done |].
    rewrite (steps_in_cslShortNames _ _ _ _ _ Hsteps).
    apply dependent_set_cslShortNames. }
  rewrite (resolveStyle_cache_hit url_parse linkElements readFile2 this2 zcreq2
             parentStyle Hind2 Hentry), Hid.
  split_and!; try done.
  unfold fetchStyle. cbn. by rewrite Hposted.
Qed.

Lemma resolve_again_after_invalid_parent_witness :
  let first :=
    resolveStyle NodeUrl.parse example_linkElements example_readFile
      example_fetcher (request_for "broken") in
  let second :=
    resolveStyle NodeUrl.parse example_linkElements example_readFile
      (new_fetcher first) (request_for "broken") in
  readDependent example_linkElements broken_xml
  = Some (Some "http://www.zotero.org/apa")
  /\ trace second = [Callback None]
  /\ styleUrlObj (new_zcreq second)
     = ErrorString
         "Invalid www.zotero.org URL for style: http://www.zotero.org/apa".
Proof.
  cbv zeta.
  assert (request_key (request_for "broken") <> "__proto__") as Hk
    by discriminate.
  assert (forall p, dependent_get example_fetcher
                      (request_key (request_for "broken")) <> VString p)
    as Hnot by (intros p; vm_compute; discriminate).
  destruct (resolve_again_after_invalid_parent NodeUrl.parse
              example_linkElements
              (fun filename result => result = example_readFile filename)
              example_readFile example_fetcher
              (request_for "broken") broken_xml "http://www.zotero.org/apa"
              "Invalid www.zotero.org URL for style: http://www.zotero.org/apa"
              (new_fetcher
                 (resolveStyle NodeUrl.parse example_linkElements
                    example_readFile example_fetcher (request_for "broken")))
              example_readFile (request_for "broken")
              Hk eq_refl eq_refl Hnot eq_refl)
    as (_ & Htrace & _ & Hid & _).
  - vm_compute. reflexivity.
  - reflexivity.
  - intros data' Hdata. vm_compute in Hdata. injection Hdata as ->.
    vm_compute. reflexivity.
  - apply rtc_refl.
  - reflexivity.
  - reflexivity.
  - split_and!; [vm_compute; reflexivity | exact Htrace | exact Hid].
Defined.

(** ** Names inherited from Object.prototype *)

Lemma inherited_cases (k : string) :
  inherited k = VUndefined \/ inherited k = VFunction \/ inherited k = VObject.
Proof.
  unfold inherited, object_prototype. cbn [assoc].
  repeat match goal with
    | |- context [String.eqb ?a ?b] => destruct (String.eqb a b); [auto |]
    end.
  auto.
Qed.

Lemma inherited_names (k : string) :
  inherited k <> VUndefined <-> k ∈ object_prototype.*1.
Proof.
  split.
  - intros Hk. apply list_elem_of_In. revert Hk.
    unfold inherited, object_prototype. cbn [assoc fmap list_fmap fst In].
    repeat match goal with
      | |- context [String.eqb ?a ?b] =>
          destruct (String.eqb_spec a b); [auto 20 |]
      end.
    done.
  - simpl. rewrite !elem_of_cons, elem_of_nil.
    intros Hk. repeat destruct Hk as [-> | Hk]; done.
Qed.

(** A name that is in neither registry but is the name of a member of
    [Object.prototype] ([constructor], [toString], [__proto__], ...) is not
    answered with 404: while the dependent table has [Object.prototype],
    as [init] made it, the table answers with the inherited member, and
    [resolveStyle] reads the file of that name in the dependent
    directory. *)
Theorem resolveStyle_inherited_name
    (url_parse : string -> ParsedUrl) (linkElements : string -> list LinkEl)
    (readFile : string -> FileResult) (this : Fetcher) (zcreq : ZcReq) :
  dependentProto this = true ->
  request_key zcreq ∈ object_prototype.*1 ->
  cslShortNames this !! request_key zcreq = None ->
  cslDependentShortNames this !! request_key zcreq = None ->
  let out := resolveStyle url_parse linkElements readFile this zcreq in
  reads (trace out) = [dependent_file this (request_key zcreq)]
  /\ callbacks (trace out) <> [Some (ErrStatus 404 "Style not found")]
  /\ (forall err, readFile (dependent_file this (request_key zcreq))
                  = FsErr err ->
      callbacks (trace out) = [Some (ErrFs err)]).
Proof.
  unfold request_key, dependent_file. intros Hflag Hk Hi Hd. cbv zeta.
  apply inherited_names in Hk.
  assert (independent this (Js.key (id_shortName (styleUrlObj zcreq))) = false
          /\ dependent this (Js.key (id_shortName (styleUrlObj zcreq))) = true
          /\ forall p, dependent_get this
                         (Js.key (id_shortName (styleUrlObj zcreq)))
                       <> VString p) as (Hind & Hdep & Hnot).
  { unfold independent, dependent, dependent_get, Js.get. rewrite Hflag, Hi, Hd.
    destruct (inherited_cases (Js.key (id_shortName (styleUrlObj zcreq))))
      as [He | [He | He]]; [done | by rewrite He ..]. }
  unfold resolveStyle, resolveStyle_call. rewrite Hind, Hdep.
  destruct (dependent_get this
              (Js.key (id_shortName (styleUrlObj zcreq))))
    as [| | p | | |] eqn:Hv;
    try (by destruct (Hnot p));
    unfold resolveStyle_onRead;
    (destruct (readFile _) as [err | data] eqn:Hrd; simpl;
     [split_and!; [done | done | by intros ? [= <-]] |];
     destruct (readDependent linkElements data) as [[parent |] |]; simpl;
     [destruct (processStyleIdentifier url_parse parent) | |]; simpl;
     split_and!; done).
Qed.

Lemma resolveStyle_inherited_name_witness :
  reads (trace (resolveStyle NodeUrl.parse example_linkElements
                  example_readFile example_fetcher
                  (request_for "constructor")))
  = ["./csl/dependent/constructor.csl"]
  /\ callbacks (trace (resolveStyle NodeUrl.parse example_linkElements
                         example_readFile example_fetcher
                         (request_for "constructor")))
     = [Some (ErrFs "ENOENT")].
Proof.
  destruct (resolveStyle_inherited_name NodeUrl.parse example_linkElements
              example_readFile example_fetcher (request_for "constructor"))
    as (Hreads & _ & Herr).
  - reflexivity.
  - apply list_elem_of_In. simpl. by left.
  - reflexivity.
  - reflexivity.
  - split; [exact Hreads | exact (Herr "ENOENT" eq_refl)].
Defined.

(** ** The registries over the life of the process *)

Lemma step_dependent_values
    (url_parse : string -> ParsedUrl) (linkElements : string -> list LinkEl)
    (f f' : Fetcher) :
  step url_parse linkElements f f' ->
  dependent_values f -> dependent_values f'.
Proof.
  intros [k result this zcreq _ _] Hvals.
  destruct (resolveStyle_onRead_fetcher url_parse linkElements k result this
              zcreq) as [-> | (data & p & _ & _ & ->)]; [done |].
  intros k' v. rewrite dependent_set_lookup. case_decide; [| apply Hvals].
  intros [= <-]. right. destruct p as [p |]; simpl; eauto.
Qed.

Lemma steps_dependent_values
    (url_parse : string -> ParsedUrl) (linkElements : string -> list LinkEl)
    (f f' : Fetcher) :
  rtc (step url_parse linkElements) f f' ->
  dependent_values f -> dependent_values f'.
Proof. induction 1; eauto using step_dependent_values. Qed.

(** In every state that the fetcher reaches from [init], the values of the
    independent table are all [true], and those of the dependent table
    are [true], a string, or [null], which is what a parent link without
    [href] leaves there.  [__proto__] is not an own property of the
    independent table, and it is not one of the dependent table as long as
    that table has [Object.prototype]. *)
Theorem reachable_registry_values
    (url_parse : string -> ParsedUrl) (linkElements : string -> list LinkEl)
    (this : Fetcher) :
  reachable url_parse linkElements this ->
  (forall k v, cslShortNames this !! k = Some v -> v = VBool true)
  /\ (forall k v, cslDependentShortNames this !! k = Some v ->
        v = VBool true \/ v = VNull \/ exists parentStyle, v = VString parentStyle)
  /\ cslShortNames this !! "__proto__" = None
  /\ (dependentProto this = true ->
      cslDependentShortNames this !! "__proto__" = None).
Proof.
  intros Hreach.
  destruct (reachable_wf url_parse linkElements this Hreach)
    as (Hp & Hd & Hall).
  split_and!; [exact Hall | | exact Hp | exact Hd].
  destruct Hreach as (path & dir & depDir & Hsteps).
  assert (dependent_values (init path dir depDir)) as Hinit.
  { intros k v Hk. simpl in Hk. apply scan_dir_lookup in Hk. left. tauto. }
  exact (steps_dependent_values _ _ _ _ Hsteps Hinit).
Qed.

Lemma reachable_registry_values_witness :
  cslDependentShortNames
    (new_fetcher (resolveStyle NodeUrl.parse example_linkElements
                    example_readFile example_fetcher (request_for "nohref")))
    !! "nohref" = Some VNull
  /\ forall k v,
       cslDependentShortNames
         (new_fetcher (resolveStyle NodeUrl.parse example_linkElements
                         example_readFile example_fetcher
                         (request_for "nohref")))
         !! k = Some v ->
       v = VBool true \/ v = VNull
       \/ exists parentStyle, v = VString parentStyle.
Proof.
  split; [vm_compute; reflexivity |].
  apply (reachable_registry_values NodeUrl.parse example_linkElements).
  exists "./csl", ["apa.csl"; "README.md"],
    ["apa-variant.csl"; "chained.csl"; "broken.csl"; "nohref.csl"].
  apply resolveStyle_steps.
Defined.

Lemma step_registry_grows
    (url_parse : string -> ParsedUrl) (linkElements : string -> list LinkEl)
    (f f' : Fetcher) :
  step url_parse linkElements f f' ->
  cslPath f' = cslPath f
  /\ dom (cslDependentShortNames f) ⊆ dom (cslDependentShortNames f')
  /\ forall k, k ∈ dom (cslDependentShortNames f') ->
       k ∈ dom (cslDependentShortNames f) \/ k ∈ object_prototype.*1.
Proof.
  intros [k result this zcreq Hposs _].
  destruct (resolveStyle_onRead_fetcher url_parse linkElements k result this
              zcreq) as [-> | (data & p & _ & _ & ->)]; [by auto |].
  split; [apply dependent_set_cslPath |].
  destruct (dependent_set_dom this k (parent_value p)) as [Hsub Hsup].
  split; [exact Hsub |].
  intros k' Hk'. apply Hsup in Hk'.
  apply elem_of_union in Hk' as [->%elem_of_singleton | Hk']; [| by left].
  destruct (cslDependentShortNames this !! k) as [w|] eqn:Hw;
    [left; apply elem_of_dom; eauto |].
  right. apply inherited_names. intros Hu.
  apply andb_true_iff in Hposs as [_ Hdep].
  unfold Js.get in Hdep. by rewrite Hw, Hu in Hdep.
Qed.

(** Over any sequence of steps the path and the independent registry stay
    as [init] made them, and no entry of the dependent table is removed.
    The only names that can be added to the dependent table are names of
    members of [Object.prototype]: no step registers a style that [init]
    did not find. *)
Theorem steps_registry_evolution
    (url_parse : string -> ParsedUrl) (linkElements : string -> list LinkEl)
    (f f' : Fetcher) :
  rtc (step url_parse linkElements) f f' ->
  cslPath f' = cslPath f
  /\ cslShortNames f' = cslShortNames f
  /\ dom (cslDependentShortNames f) ⊆ dom (cslDependentShortNames f')
  /\ forall k, k ∈ dom (cslDependentShortNames f') ->
       k ∈ dom (cslDependentShortNames f) \/ k ∈ object_prototype.*1.
Proof.
  intros Hsteps.
  pose proof (steps_cslShortNames url_parse linkElements _ _ Hsteps) as Hnames.
  induction Hsteps as [f | f1 f2 f3 H12 H23 IH].
  - split_and!; [done | done | done | by left].
  - destruct (step_registry_grows _ _ _ _ H12) as (Hpath & Hsub & Hnew).
    destruct IH as (Hpath' & _ & Hsub' & Hnew').
    { apply (steps_cslShortNames url_parse linkElements _ _ H23). }
    split_and!; [congruence | done | by etrans |].
    intros k Hk. destruct (Hnew' k Hk) as [Hk2 | Hk2]; [| by right].
    apply (Hnew k Hk2).
Qed.

Lemma steps_registry_evolution_witness :
  dom (cslDependentShortNames example_fetcher)
  ⊆ dom (cslDependentShortNames
           (new_fetcher (resolveStyle NodeUrl.parse example_linkElements
                           example_readFile example_fetcher
                           (request_for "apa-variant")))).
Proof.
  apply (steps_registry_evolution NodeUrl.parse example_linkElements).
  apply resolveStyle_steps.
Defined.

(** ** readDependent: the first parent link *)

(** [readDependent] returns the [href] of the first [link] element whose
    [rel] is exactly [independent-parent] ([null] when that element has
    no [href]), whatever other [link] elements come before or after it,
    and reports that there is none exactly when no element has that
    [rel]. *)
Theorem readDependent_first_parent
    (linkElements : string -> list LinkEl) (xml : string) :
  (forall parentStyle,
     readDependent linkElements xml = Some parentStyle
     <-> exists (before : list LinkEl) (el : LinkEl) (after : list LinkEl),
           linkElements xml = (before ++ el :: after)%list
           /\ Forall (fun e => rel e <> "independent-parent") before
           /\ rel el = "independent-parent"
           /\ href el = parentStyle)
  /\ (readDependent linkElements xml = None
      <-> Forall (fun e => rel e <> "independent-parent") (linkElements xml)).
Proof.
  unfold readDependent. generalize (linkElements xml) as els. intros els.
  split.
  - intros parentStyle. induction els as [|e els IH]; simpl.
    + split; [done |]. intros (before & el & after & Heq & _).
      by destruct before.
    + destruct (String.eqb_spec (rel e) "independent-parent") as [He | He].
      * split.
        -- intros [= <-]. by exists [], e, els.
        -- intros (before & el & after & Heq & Hbefore & Hrel & <-).
           destruct before as [|b before]; simpl in Heq;
             injection Heq as -> ->; [done |].
           by apply Forall_cons in Hbefore as [? _].
      * rewrite IH. split.
        -- intros (before & el & after & -> & Hbefore & Hrel & <-).
           exists (e :: before), el, after. split_and!; try done.
           by apply Forall_cons.
        -- intros (before & el & after & Heq & Hbefore & Hrel & <-).
           destruct before as [|b before]; simpl in Heq;
             injection Heq as -> ->; [done |].
           apply Forall_cons in Hbefore as [_ Hbefore].
           by exists before, el, after.
  - induction els as [|e els IH]; simpl; [done |].
    destruct (String.eqb_spec (rel e) "independent-parent") as [He | He].
    + split; [done |]. by intros [? _]%Forall_cons.
    + rewrite IH. split; [intros Hels; by apply Forall_cons |].
      by intros [_ ?]%Forall_cons.
Qed.

(** ** getCachedStyle *)

(** [getCachedStyle] never returns [undefined]: a miss is reported as
    [false].  On the cache as the module creates it, every URL is a miss,
    except the names of the members of [Object.prototype], for which the
    inherited member comes back. *)
Theorem getCachedStyle_miss (_cache : gmap string jsval) (url : string) :
  getCachedStyle _cache url <> VUndefined
  /\ (forall v, _cache !! url = Some v -> v <> VUndefined ->
      getCachedStyle _cache url = v)
  /\ (getCachedStyle ∅ url = VBool false <-> url ∉ object_prototype.*1)
  /\ (url ∈ object_prototype.*1 -> getCachedStyle ∅ url = inherited url).
Proof.
  unfold getCachedStyle. split_and!.
  - by destruct (Js.get _cache url).
  - intros v Hv Hne. rewrite (get_own _ _ _ Hv). by destruct v.
  - unfold Js.get. rewrite lookup_empty. rewrite <- inherited_names.
    destruct (inherited_cases url) as [-> | [-> | ->]]; simpl; split;
      try discriminate; try done.
    + intros _ H. by apply H.
    + intros H. by destruct H.
    + intros H. by destruct H.
  - intros Hin%inherited_names. unfold Js.get. rewrite lookup_empty.
    by destruct (inherited_cases url) as [He | [-> | ->]].
Qed.

(** ** The text handed to the parser *)

Lemma append_assoc_string (a b c : string) :
  (a +:+ b) +:+ c = a +:+ (b +:+ c).
Proof.
  induction a as [|x a IH]; [done |].
  change (String x ((a +:+ b) +:+ c) = String x (a +:+ (b +:+ c))).
  by rewrite IH.
Qed.









Lemma strip_pi_keep (c : ascii) (s : string) :
  match_pi (String c s) = None ->
  strip_pi (String c s) = String c (strip_pi s).
Proof. intros Hmatch. unfold strip_pi. simpl. by rewrite Hmatch. Qed.

Lemma occurs_suffix (p : string) (c : ascii) (s : string) :
  occurs p (String c s) = false -> occurs p s = false.
Proof. simpl. by intros [_ ?]%orb_false_elim. Qed.

Lemma occurs_skip_spaces (p s : string) :
  occurs p s = false -> occurs p (skip_spaces s) = false.
Proof.
  induction s as [|c s IH]; [done |]. intros Hs. simpl.
  destruct (is_space c); [| done]. by apply IH, (occurs_suffix p c).
Qed.

Lemma match_pi_occurs (s : string) :
  occurs "<?" s = false -> match_pi s = None.
Proof.
  intros Hs%occurs_skip_spaces. unfold match_pi.
  destruct (skip_spaces s) as [|c1 [|c2 body]]; try done.
  destruct (Ascii.eqb_spec c1 "<") as [-> |]; [| done].
  destruct (Ascii.eqb_spec c2 "?") as [-> |]; [| done].
  simpl in Hs. discriminate Hs.
Qed.

(** A text in which [<?] does not occur passes through the first
    replacement as it is. *)
Theorem strip_pi_no_instruction (s : string) :
  occurs "<?" s = false -> strip_pi s = s.
Proof.
  induction s as [|c s IH]; [done |]. intros Hs.
  rewrite strip_pi_keep by by apply match_pi_occurs.
  by rewrite IH by by apply (occurs_suffix "<?" c).
Qed.

Lemma strip_pi_no_instruction_witness :
  strip_pi "<style><info><link rel='independent-parent'/></info></style>"
  = "<style><info><link rel='independent-parent'/></info></style>".
Proof.
  exact (strip_pi_no_instruction
           "<style><info><link rel='independent-parent'/></info></style>"
           eq_refl).
Defined.




(** ** Renaming the root tag *)

Lemma append_cons (c : ascii) (x y : string) :
  String c x +:+ y = String c (x +:+ y).
Proof. reflexivity. Qed.

Lemma append_nil_l (y : string) : "" +:+ y = y.
Proof. reflexivity. Qed.

(** An occurrence of [</style] that begins in [x] and is found in [x]
    followed by [</style] lies within [x]: the pattern has its only [<] in
    front. *)
Lemma starts_with_close_straddle (x tail : string) :
  x <> "" ->
  starts_with "</style" (x +:+ "</style" +:+ tail) = true ->
  starts_with "</style" x = true.
Proof.
  intros Hx H. destruct x as [|c x]; [done |]. clear Hx.
  rewrite append_cons in H. simpl in H |- *.
  apply andb_prop in H as [-> H]. simpl.
  do 6 (destruct x as [|? x];
        [rewrite append_nil_l in H; simpl in H; discriminate H |];
        rewrite append_cons in H; simpl in H |- *;
        apply andb_prop in H as [-> H]; simpl).
  done.
Qed.

(** The second replacement renames the first [</style], which is the one
    behind a text without occurrence. *)
Lemma rename_close_first (x tail : string) :
  occurs "</style" x = false ->
  rename_close (x +:+ "</style" +:+ tail) = x +:+ "</cslstyle" +:+ tail.
Proof.
  induction x as [|c x IH]; intros Hx.
  - rewrite !append_nil_l. change ("</style" +:+ tail)
      with (String "<" ("/style" +:+ tail)) at 1.
    simpl. f_equal. apply (substr_from_app "</style" tail).
  - rewrite !(append_cons c x). cbn [rename_close].
    destruct (starts_with "</style" (String c (x +:+ "</style" +:+ tail)))
      eqn:Hs.
    + rewrite <- append_cons in Hs.
      apply starts_with_close_straddle in Hs; [| done].
      cbn [occurs] in Hx. apply orb_false_elim in Hx as [Hx _]. congruence.
    + f_equal. apply IH. by apply (occurs_suffix "</style" c).
Qed.

Lemma rename_open_none (s : string) :
  open_tag_occurs s = false -> rename_open s = s.
Proof.
  induction s as [|c s IH]; [done |]. intros Hs.
  cbn [open_tag_occurs] in Hs. apply orb_false_elim in Hs as [Hhere Hs].
  cbn [rename_open]. rewrite Hhere. f_equal. by apply IH.
Qed.

Lemma rename_open_head (w : ascii) (rest : string) :
  is_space w = true ->
  rename_open ("<style" +:+ String w rest) = "<cslstyle " +:+ rest.
Proof.
  intros Hw.
  change ("<style" +:+ String w rest)
    with (String "<" ("style" +:+ String w rest)).
  cbn [rename_open]. unfold open_tag_here. simpl. rewrite Hw. simpl.
  f_equal. apply (substr_from_app ("<style" +:+ String w "") rest).
Qed.

(** A root tag with attributes is renamed at both ends: the text begins
    with [<style] and a white space character, and the first [</style]
    behind it is the closing tag. *)
Theorem rename_root_tag (w : ascii) (body tail : string) :
  is_space w = true ->
  occurs "</style" body = false ->
  rename_close (rename_open ("<style" +:+ String w (body +:+ "</style" +:+ tail)))
  = "<cslstyle " +:+ body +:+ "</cslstyle" +:+ tail.
Proof.
  intros Hw Hbody. rewrite rename_open_head by done.
  rewrite <- (append_assoc_string "<cslstyle " body).
  rewrite rename_close_first; [by rewrite append_assoc_string |].
  rewrite !append_cons, append_nil_l. simpl. exact Hbody.
Qed.

Lemma rename_root_tag_witness :
  rename_close
    (rename_open
       ("<style" +:+ String " " ("version='1.0'><info/>" +:+ "</style" +:+ ">")))
  = "<cslstyle " +:+ "version='1.0'><info/>" +:+ "</cslstyle" +:+ ">".
Proof.
  exact (rename_root_tag " " "version='1.0'><info/>" ">" eq_refl eq_refl).
Defined.

(** The two replacements do not look for the same tag: the first wants a
    white space character behind [<style], the second takes any
    [</style].  In a text where no [<style] is followed by white space,
    such as one whose root tag is [<style>] without attributes, the
    opening tag keeps its name and the first closing tag is renamed. *)
Theorem rename_close_only (x tail : string) :
  open_tag_occurs (x +:+ "</style" +:+ tail) = false ->
  occurs "</style" x = false ->
  rename_close (rename_open (x +:+ "</style" +:+ tail))
  = x +:+ "</cslstyle" +:+ tail.
Proof.
  intros Hopen Hx. rewrite rename_open_none by done.
  by apply rename_close_first.
Qed.

Lemma rename_close_only_witness :
  rename_close (rename_open ("<style><info/>" +:+ "</style" +:+ ">"))
  = "<style><info/>" +:+ "</cslstyle" +:+ ">".
Proof.
  exact (rename_close_only "<style><info/>" ">" eq_refl eq_refl).
Defined.

(** ** Examples of the rewriting *)

Example rewrite_example :
  rewrite_xml
    "  <?xml version='1.0' encoding='utf-8'?>
<style xmlns='http://purl.org/net/xbiblio/csl' version='1.0'>
  <info><link rel='independent-parent' href='apa'/></info>
</style>
"
  = "<cslstyle xmlns='http://purl.org/net/xbiblio/csl' version='1.0'>
  <info><link rel='independent-parent' href='apa'/></info>
</cslstyle>".
Proof. vm_compute. reflexivity. Qed.

Example rewrite_example_bare :
  rewrite_xml "<?xml?><style><info/></style>"
  = "<style><info/></cslstyle>".
Proof. vm_compute. reflexivity. Qed.

Example strip_example :
  strip_pi " <?bad> <?ok?> x <?>" = " <?bad>x <?>".
Proof. vm_compute. reflexivity. Qed.
